(** * ec2_route_tables: reconciliation of AWS VPC route tables

    A shallow embedding of [cloud/amazon/ec2_route_tables.py] and the
    properties of its matching, planning and execution code.

    Conventions of the embedding.
    - boto objects are records.  A boto object has no [__eq__], so Python's
      [==] on route tables (used by [list.remove]) is object identity; a
      route table therefore carries the identity [rt_obj] of the object.
    - An attribute that boto leaves at [None] is an [option string]; Python's
      truth test on it is [truthy].
    - A Python exception is a constructor of [exn]; code that can raise
      returns an [outcome].
    - The mutating calls on [vpc_conn] are recorded, in order, as a list of
      [call]s; the provider is assumed to accept every call. *)

From stdpp Require Import base option list strings gmap.

Local Open Scope string_scope.
Local Open Scope list_scope.

(** ** Python values *)

(** Truth value of an attribute that holds [None] or a string. *)
Definition truthy (o : option string) : bool :=
  match o with
  | None => false
  | Some s => negb (bool_decide (s = ""))
  end.

Inductive exn : Type :=
  | KeyError
  | ValueError
  | TypeError
  | IndexError
  | NameError.

Inductive outcome (A : Type) : Type :=
  | Return (a : A)
  | Raise (e : exn).
Arguments Return {A} a.
Arguments Raise {A} e.

#[global] Instance outcome_ret : MRet outcome := @Return.
#[global] Instance outcome_bind : MBind outcome := fun A B f m =>
  match m with
  | Return a => f a
  | Raise e => Raise e
  end.

(** ** Data model *)

(** boto.vpc.subnet.Subnet *)
Record Subnet : Type := {
  sn_id : string;
  cidr_block : string
}.

(** boto.vpc.routetable.Route *)
Record Route : Type := {
  destination_cidr_block : option string;
  gateway_id : option string;
  instance_id : option string
}.

(** boto.vpc.routetable.RouteAssociation *)
Record RouteAssociation : Type := {
  assoc_id : string;
  subnet_id : option string;
  assoc_main : bool
}.

(** boto.vpc.routetable.RouteTable; [rt_obj] is the identity of the object. *)
Record RouteTable : Type := {
  rt_obj : nat;
  rt_id : string;
  routes : list Route;
  associations : list RouteAssociation
}.

(** boto.vpc.internetgateway.InternetGateway *)
Record Gateway : Type := {
  igw_id : string
}.

(** An entry of [table['routes']]: [{dest: ..., gw: ...}]. *)
Record DesiredRoute : Type := {
  dest : string;
  gw : string
}.

(** An entry of the [route_tables] parameter: [{subnets: [...], routes: [...]}]. *)
Record DesiredTable : Type := {
  req_routes : list DesiredRoute;
  req_subnets : list string
}.

(** ** Route, association and table matching *)

(** The [continue] conditions of the loop of [find_matching_route]
    (lines 134-140): the live [route] is passed over for [requested_route]. *)
Definition route_skipped (route : Route) (requested_route : DesiredRoute)
    (gateway : Gateway) : bool :=
  if truthy (gateway_id route)
     && (bool_decide (gw requested_route ≠ "igw")
         || bool_decide (gateway_id route ≠ Some (igw_id gateway)))
  then true
  else if truthy (instance_id route)
          && bool_decide (instance_id route ≠ Some (gw requested_route))
  then true
  else truthy (destination_cidr_block route)
       && bool_decide (destination_cidr_block route ≠ Some (dest requested_route)).

Fixpoint find_matching_route (existing_routes : list Route)
    (requested_route : DesiredRoute) (subnet_mapper : gmap string Subnet)
    (gateway : Gateway) : option Route :=
  match existing_routes with
  | [] => None
  | route :: rest =>
      if route_skipped route requested_route gateway
      then find_matching_route rest requested_route subnet_mapper gateway
      else Some route
  end.

(** [subnet_mapper[key]]: a missing key, and [None] as a key, raise. *)
Definition getitem (subnet_mapper : gmap string Subnet) (key : option string)
    : outcome Subnet :=
  match key with
  | None => Raise KeyError
  | Some k =>
      match subnet_mapper !! k with
      | Some subnet => Return subnet
      | None => Raise KeyError
      end
  end.

Fixpoint find_matching_association (existing_associations : list RouteAssociation)
    (requested_subnet : string) (subnet_mapper : gmap string Subnet)
    : outcome (option RouteAssociation) :=
  match existing_associations with
  | [] => Return None
  | association :: rest =>
      subnet ← getitem subnet_mapper (subnet_id association);
      if bool_decide (requested_subnet = cidr_block subnet)
      then Return (Some association)
      else find_matching_association rest requested_subnet subnet_mapper
  end.

(** Line 155: the routes of the table but those whose gateway is ['local']. *)
Definition non_local (table_routes : list Route) : list Route :=
  List.filter (fun route => bool_decide (gateway_id route ≠ Some "local"))
    table_routes.

(** Lines 159-162: [matched] after the loop over the requested routes. *)
Fixpoint routes_matched (live_routes : list Route)
    (requested_routes : list DesiredRoute) (subnet_mapper : gmap string Subnet)
    (gateway : Gateway) : bool :=
  match requested_routes with
  | [] => true
  | route :: rest =>
      match find_matching_route live_routes route subnet_mapper gateway with
      | None => false
      | Some _ => routes_matched live_routes rest subnet_mapper gateway
      end
  end.

(** Lines 169-172: [matched] after the loop over the requested subnets. *)
Fixpoint subnets_matched (live_associations : list RouteAssociation)
    (requested_subnets : list string) (subnet_mapper : gmap string Subnet)
    : outcome bool :=
  match requested_subnets with
  | [] => Return true
  | subnet :: rest =>
      found ← find_matching_association live_associations subnet subnet_mapper;
      match found with
      | None => Return false
      | Some _ => subnets_matched live_associations rest subnet_mapper
      end
  end.

(** The body of the loop of [find_matching_table] (lines 154-176): [true]
    when the loop returns [table], [false] when it goes on to the next one. *)
Definition table_matches (table : RouteTable) (requested_table : DesiredTable)
    (subnet_mapper : gmap string Subnet) (gateway : Gateway) : outcome bool :=
  let live_routes := non_local (routes table) in
  if bool_decide (length (req_routes requested_table) ≠ length live_routes)
  then Return false
  else if negb (routes_matched live_routes (req_routes requested_table)
                  subnet_mapper gateway)
  then Return false
  else if bool_decide (length (req_subnets requested_table)
                        ≠ length (associations table))
  then Return false
  else subnets_matched (associations table) (req_subnets requested_table)
         subnet_mapper.

Fixpoint find_matching_table (existing_tables : list RouteTable)
    (requested_table : DesiredTable) (subnet_mapper : gmap string Subnet)
    (gateway : Gateway) : outcome (option RouteTable) :=
  match existing_tables with
  | [] => Return None
  | table :: rest =>
      matched ← table_matches table requested_table subnet_mapper gateway;
      if (matched : bool)
      then Return (Some table)
      else find_matching_table rest requested_table subnet_mapper gateway
  end.

(** ** The subnet lookup (lines 239-242) *)

(** [dict(items)]: of two items with the same key the later one stays. *)
Definition dict (items : list (string * Subnet)) : gmap string Subnet :=
  foldl (fun m item => <[item.1 := item.2]> m) ∅ items.

(** [subnets] is what [get_all_subnets] answers (asked twice, same answer). *)
Definition build_subnet_mapper (subnets : list Subnet) : gmap string Subnet :=
  let subnet_mapper := dict (List.map (fun subnet => (sn_id subnet, subnet)) subnets) in
  dict (map_to_list subnet_mapper
        ++ map_to_list
             (dict (List.map (fun subnet => (cidr_block subnet, subnet)) subnets))).

(** ** The planner (lines 244-255 of [main]) *)

(** [l.remove(x)] on a list of route tables: the first element that is the
    object [x] goes; [ValueError] when there is none. *)
Fixpoint list_remove (x : RouteTable) (l : list RouteTable)
    : outcome (list RouteTable) :=
  match l with
  | [] => Raise ValueError
  | y :: rest =>
      if bool_decide (rt_obj y = rt_obj x)
      then Return rest
      else rest' ← list_remove x rest; Return (y :: rest')
  end.

(** [gateways[0]] *)
Definition first_gateway (gateways : list Gateway) : outcome Gateway :=
  match gateways with
  | [] => Raise IndexError
  | gateway :: _ => Return gateway
  end.

(** The three lists the loop of lines 247-253 works on. *)
Record Plan : Type := {
  new_tables : list DesiredTable;
  matched_tables : list RouteTable;
  old_tables : list RouteTable
}.

(** One turn of the loop of lines 247-253. *)
Definition plan_step (existing_tables : list RouteTable)
    (subnet_mapper : gmap string Subnet) (gateways : list Gateway)
    (p : Plan) (requested_table : DesiredTable) : outcome Plan :=
  gateway ← first_gateway gateways;
  matching_table ← find_matching_table existing_tables requested_table
                      subnet_mapper gateway;
  match matching_table with
  | Some table =>
      old ← list_remove table (old_tables p);
      Return {| new_tables := new_tables p;
                matched_tables := matched_tables p ++ [table];
                old_tables := old |}
  | None =>
      Return {| new_tables := new_tables p ++ [requested_table];
                matched_tables := matched_tables p;
                old_tables := old_tables p |}
  end.

Fixpoint plan_loop (existing_tables : list RouteTable)
    (requested_tables : list DesiredTable)
    (subnet_mapper : gmap string Subnet) (gateways : list Gateway)
    (p : Plan) : outcome Plan :=
  match requested_tables with
  | [] => Return p
  | requested_table :: rest =>
      p' ← plan_step existing_tables subnet_mapper gateways p requested_table;
      plan_loop existing_tables rest subnet_mapper gateways p'
  end.

(** Lines 244-253. *)
Definition plan (existing_tables : list RouteTable)
    (requested_tables : list DesiredTable)
    (subnet_mapper : gmap string Subnet) (gateways : list Gateway)
    : outcome Plan :=
  plan_loop existing_tables requested_tables subnet_mapper gateways
    {| new_tables := []; matched_tables := []; old_tables := existing_tables |}.

(** Line 255. *)
Definition changed_of (p : Plan) : bool :=
  bool_decide (0 < length (old_tables p))
  || bool_decide (0 < length (new_tables p)).

(** ** The executor *)

(** The mutating calls made on [vpc_conn], with their arguments. *)
Inductive call : Type :=
  | disassociate_route_table (association_id : string)
  | delete_route_table (route_table_id : string)
  | create_route_table (vpc_id : string)
  | create_route (route_table_id destination_cidr_block : string)
      (gateway_id instance_id : option string)
  | associate_route_table (route_table_id subnet_id : string).

(** A computation that makes calls and then returns or raises. *)
Record Exec (A : Type) : Type := MkExec {
  calls : list call;
  result : outcome A
}.
Arguments MkExec {A} calls result.
Arguments calls {A} e.
Arguments result {A} e.

#[global] Instance exec_ret : MRet Exec := fun A a => MkExec [] (Return a).
#[global] Instance exec_bind : MBind Exec := fun A B f m =>
  match result m with
  | Return a => MkExec (calls m ++ calls (f a)) (result (f a))
  | Raise e => MkExec (calls m) (Raise e)
  end.

Definition emit (c : call) : Exec unit := MkExec [c] (Return tt).
Definition lift {A : Type} (o : outcome A) : Exec A := MkExec [] o.

(** Lines 102-107: the loop over the associations of one table; the calls
    made and [is_main] after the loop. *)
Fixpoint disassociate_all (table_associations : list RouteAssociation)
    (is_main : bool) : list call * bool :=
  match table_associations with
  | [] => ([], is_main)
  | association :: rest =>
      if negb (assoc_main association)
      then let '(cs, is_main') := disassociate_all rest is_main in
           (disassociate_route_table (assoc_id association) :: cs, is_main')
      else disassociate_all rest true
  end.

Fixpoint delete_tables (tables : list RouteTable) : list call :=
  match tables with
  | [] => []
  | table :: rest =>
      let '(cs, is_main) := disassociate_all (associations table) false in
      cs ++ (if negb is_main then [delete_route_table (rt_id table)] else [])
         ++ delete_tables rest
  end.

Section Provider.

(** [created_id n] is the identifier the provider gives to the table that
    the [n]-th call of [create_route_table] of the run creates. *)
Variable created_id : nat → string.

(** Lines 117-122. *)
Fixpoint create_routes (new_table_id : string) (gateway_ident : string)
    (table_routes : list DesiredRoute) : Exec unit :=
  match table_routes with
  | [] => mret tt
  | route :: rest =>
      let gateway := gw route in
      (if bool_decide (gateway = "igw")
       then emit (create_route new_table_id (dest route) (Some gateway_ident) None)
       else emit (create_route new_table_id (dest route) None (Some (gw route))));;
      create_routes new_table_id gateway_ident rest
  end.

(** Lines 124-125. *)
Fixpoint associate_subnets (new_table_id : string)
    (table_subnets : list string) (subnet_mapper : gmap string Subnet)
    : Exec unit :=
  match table_subnets with
  | [] => mret tt
  | subnet_cidr :: rest =>
      subnet ← lift (getitem subnet_mapper (Some subnet_cidr));
      emit (associate_route_table new_table_id (sn_id subnet));;
      associate_subnets new_table_id rest subnet_mapper
  end.

(** [create_tables], with the number [n] of tables created so far; the
    result lists the identifiers of the new tables. *)
Fixpoint create_tables (n : nat) (vpc_ident : string) (gateway_ident : string)
    (tables : list DesiredTable) (subnet_mapper : gmap string Subnet)
    : Exec (list string) :=
  match tables with
  | [] => mret []
  | table :: rest =>
      emit (create_route_table vpc_ident);;
      let new_table_id := created_id n in
      create_routes new_table_id gateway_ident (req_routes table);;
      associate_subnets new_table_id (req_subnets table) subnet_mapper;;
      new_ids ← create_tables (S n) vpc_ident gateway_ident rest subnet_mapper;
      mret (new_table_id :: new_ids)
  end.

End Provider.

(** ** The module's entry point *)

(** One entry of the [route_tables] of the answer: the identifier, the
    routes as (cidr, gateway_id, instance_id) and the associations as
    (subnet_id, is_main). *)
Definition TableResponse : Type :=
  string * list (option string * option string * option string)
         * list (option string * bool).

Definition format_response (route_tables : list RouteTable)
    : list TableResponse :=
  List.map (fun table =>
    (rt_id table,
     List.map (fun route => (destination_cidr_block route, gateway_id route,
                             instance_id route)) (routes table),
     List.map (fun association => (subnet_id association, assoc_main association))
       (associations table)))
    route_tables.

(** The [state] parameter: [choices=['present', 'absent']]. *)
Inductive State : Type := present | absent.

(** The parameters of the module that [main] reads after the VPC is found;
    a parameter that is not given is [None]. *)
Record Params : Type := {
  p_route_tables : option (list DesiredTable);
  p_state : State
}.

(** What the provider answers to the reads of one run: the identifier of the
    VPC ([vpcs[0].id]), its internet gateways, its route tables before the
    run, its subnets, and its route tables after the run. *)
Record Answers : Type := {
  vpc_ident : string;
  internet_gateways : list Gateway;
  all_route_tables : list RouteTable;
  all_subnets : list Subnet;
  final_route_tables : list RouteTable
}.

(** What [module.exit_json] reports. *)
Record Response : Type := {
  changed : bool;
  route_tables : list TableResponse
}.

(** Lines 233-236: the tables none of whose associations is the main one. *)
Definition without_main (tables : list RouteTable) : list RouteTable :=
  List.filter
    (fun table =>
       bool_decide (length (List.filter assoc_main (associations table)) = 0))
    tables.

(** [for requested_table in requested_tables]: [None] is not iterable. *)
Definition iter (requested_tables : option (list DesiredTable))
    : outcome (list DesiredTable) :=
  match requested_tables with
  | None => Raise TypeError
  | Some tables => Return tables
  end.

Section Main.

Variable created_id : nat → string.

(** [main] from line 227 on, the VPC being found (lines 181-225 parse the
    arguments, open the connection and look the VPC up; of these only the
    reads of [route_tables] and [state] are kept).  With more than one
    gateway, line 229 formats its message with the undefined name [vpc]. *)
Definition main (params : Params) (answers : Answers) : Exec Response :=
  let route_tables := p_route_tables params in
  let state := p_state params in
  let gateways := internet_gateways answers in
  if bool_decide (1 < length gateways) then lift (Raise NameError) else
  let requested_tables := p_route_tables params in
  let existing_tables := without_main (all_route_tables answers) in
  let subnet_mapper := build_subnet_mapper (all_subnets answers) in
  tables ← lift (iter requested_tables);
  p ← lift (plan existing_tables tables subnet_mapper gateways);
  let changed := changed_of p in
  MkExec (delete_tables (old_tables p)) (Return tt);;
  gateway ← lift (first_gateway gateways);
  create_tables created_id 0 (vpc_ident answers) (igw_id gateway)
    (new_tables p) subnet_mapper;;
  let existing_tables := final_route_tables answers in
  mret {| changed := changed;
          route_tables := format_response existing_tables |}.

End Main.

(** ** A small network to run the code on *)

Module Net.

Definition subnet1 : Subnet := {| sn_id := "subnet-1"; cidr_block := "10.0.1.0/24" |}.
Definition igw : Gateway := {| igw_id := "igw-1" |}.

Definition local_route : Route :=
  {| destination_cidr_block := Some "10.0.0.0/16";
     gateway_id := Some "local"; instance_id := None |}.
Definition igw_route : Route :=
  {| destination_cidr_block := Some "0.0.0.0/0";
     gateway_id := Some "igw-1"; instance_id := None |}.

(** The main table of the VPC. *)
Definition main_table : RouteTable :=
  {| rt_obj := 0; rt_id := "rtb-main"; routes := [local_route];
     associations := [{| assoc_id := "rtbassoc-0"; subnet_id := None;
                         assoc_main := true |}] |}.

(** A table routing through the gateway, associated with [subnet1]. *)
Definition public_table (obj : nat) (ident assoc : string) : RouteTable :=
  {| rt_obj := obj; rt_id := ident; routes := [local_route; igw_route];
     associations := [{| assoc_id := assoc; subnet_id := Some "subnet-1";
                         assoc_main := false |}] |}.

(** A table routing through the gateway, with no subnet. *)
Definition bare_table (obj : nat) (ident : string) : RouteTable :=
  {| rt_obj := obj; rt_id := ident; routes := [local_route; igw_route];
     associations := [] |}.

Definition want_public : DesiredTable :=
  {| req_routes := [{| dest := "0.0.0.0/0"; gw := "igw" |}];
     req_subnets := ["10.0.1.0/24"] |}.
Definition want_bare : DesiredTable :=
  {| req_routes := [{| dest := "0.0.0.0/0"; gw := "igw" |}];
     req_subnets := [] |}.
(** [10.0.9.0/24] is the block of no subnet of the network. *)
Definition want_typo : DesiredTable :=
  {| req_routes := [{| dest := "0.0.0.0/0"; gw := "igw" |}];
     req_subnets := ["10.0.9.0/24"] |}.

Definition mapper : gmap string Subnet := build_subnet_mapper [subnet1].

Definition ids (n : nat) : string :=
  match n with 0 => "rtb-new0" | 1 => "rtb-new1" | _ => "rtb-new" end.

Definition answers (live final : list RouteTable) : Answers :=
  {| vpc_ident := "vpc-1"; internet_gateways := [igw];
     all_route_tables := main_table :: live; all_subnets := [subnet1];
     final_route_tables := main_table :: final |}.

End Net.

(** ** Vocabulary of the statements *)

(** What [find_matching_table] finds for a requested table in the whole
    list of existing tables, and whether it finds nothing. *)
Definition scan (existing_tables : list RouteTable)
    (subnet_mapper : gmap string Subnet) (gateway : Gateway)
    (requested_table : DesiredTable) : option RouteTable :=
  match find_matching_table existing_tables requested_table subnet_mapper
          gateway with
  | Return found => found
  | Raise _ => None
  end.

Definition unmatched (existing_tables : list RouteTable)
    (subnet_mapper : gmap string Subnet) (gateway : Gateway)
    (requested_table : DesiredTable) : bool :=
  match find_matching_table existing_tables requested_table subnet_mapper
          gateway with
  | Return None => true
  | _ => false
  end.

(** The calls that only [create_tables] makes. *)
Definition is_create (c : call) : Prop :=
  match c with
  | disassociate_route_table _ | delete_route_table _ => False
  | _ => True
  end.

(** The call that creates a requested route in the table [new_table_id]. *)
Definition creates_route (new_table_id gateway_ident : string)
    (route : DesiredRoute) (c : call) : Prop :=
  (gw route = "igw"
   ∧ c = create_route new_table_id (dest route) (Some gateway_ident) None)
  ∨ (gw route ≠ "igw"
     ∧ c = create_route new_table_id (dest route) None (Some (gw route))).

(** The call that associates a requested subnet block with [new_table_id]. *)
Definition associates_subnet (new_table_id : string)
    (subnet_mapper : gmap string Subnet) (subnet_cidr : string) (c : call)
    : Prop :=
  ∃ subnet, subnet_mapper !! subnet_cidr = Some subnet
            ∧ c = associate_route_table new_table_id (sn_id subnet).

(** A live association whose subnet is in the lookup and has another block
    than [requested_subnet]: the loop of [find_matching_association] goes on
    to the next one. *)
Definition passed_over (subnet_mapper : gmap string Subnet)
    (requested_subnet : string) (association : RouteAssociation) : Prop :=
  ∃ subnet, getitem subnet_mapper (subnet_id association) = Return subnet
            ∧ cidr_block subnet ≠ requested_subnet.

(** The calls that only [delete_tables] makes. *)
Definition is_delete (c : call) : Prop :=
  match c with
  | disassociate_route_table _ | delete_route_table _ => True
  | _ => False
  end.

(** The existing tables whose object is not among the [matched] ones. *)
Definition unmatched_tables (existing_tables matched : list RouteTable)
    : list RouteTable :=
  List.filter (fun table => bool_decide (rt_obj table ∉ rt_obj <$> matched))
    existing_tables.

(** The calls that [delete_tables] makes for one table. *)
Definition deletion_of (table : RouteTable) : list call :=
  (disassociate_route_table ∘ assoc_id
     <$> List.filter (fun a => negb (assoc_main a)) (associations table))
  ++ (if bool_decide (List.filter assoc_main (associations table) = [])
      then [delete_route_table (rt_id table)] else []).

(** The last subnet of the list whose key, taken by [key], is [k]. *)
Definition last_with (key : Subnet → string) (k : string)
    (subnets : list Subnet) : option Subnet :=
  last (List.filter (fun subnet => bool_decide (key subnet = k)) subnets).

(** A live route agrees with a requested route: each attribute that is set
    on the live route is the one the request asks for. *)
Definition agrees (route : Route) (requested_route : DesiredRoute)
    (gateway : Gateway) : Prop :=
  (truthy (gateway_id route) = true →
     gw requested_route = "igw" ∧ gateway_id route = Some (igw_id gateway))
  ∧ (truthy (instance_id route) = true →
     instance_id route = Some (gw requested_route))
  ∧ (truthy (destination_cidr_block route) = true →
     destination_cidr_block route = Some (dest requested_route)).

(** What [create_tables] does for the [table] that comes after [before] in
    its list, when all goes as declared: after the calls for [before], the
    creation of a table, one creation for each declared route, one
    association for each declared subnet block, then the calls for the
    tables that come [after]. *)
Definition created_as_declared (created_id : nat → string) (n : nat)
    (vpc_ident gateway_ident : string) (before : list DesiredTable)
    (table : DesiredTable) (after : list DesiredTable)
    (subnet_mapper : gmap string Subnet) : Prop :=
  let new_table_id := created_id (n + length before) in
  ∃ route_calls subnet_calls,
    calls (create_tables created_id n vpc_ident gateway_ident
             (before ++ table :: after) subnet_mapper)
    = calls (create_tables created_id n vpc_ident gateway_ident before
               subnet_mapper)
      ++ create_route_table vpc_ident :: route_calls ++ subnet_calls
      ++ calls (create_tables created_id (S (n + length before)) vpc_ident
                  gateway_ident after subnet_mapper)
    ∧ Forall2 (creates_route new_table_id gateway_ident) (req_routes table)
        route_calls
    ∧ Forall2 (associates_subnet new_table_id subnet_mapper)
        (req_subnets table) subnet_calls.

(** * Properties *)

(** ** Route equivalence *)

Lemma truthy_true (o : option string) :
  truthy o = true ↔ ∃ s, o = Some s ∧ s ≠ "".
Proof.
  destruct o as [s|]; simpl.
  - rewrite negb_true_iff, bool_decide_eq_false. split.
    + intros Hs. by exists s.
    + intros (s' & [= <-] & Hs). done.
  - split; [done | by intros (s & ? & _)].
Qed.

(** A live route is not passed over exactly when each attribute that is set
    on it agrees with the requested route. *)
Lemma route_skipped_false (route : Route) (requested_route : DesiredRoute)
    (gateway : Gateway) :
  route_skipped route requested_route gateway = false ↔
    (truthy (gateway_id route) = true →
       gw requested_route = "igw" ∧ gateway_id route = Some (igw_id gateway))
    ∧ (truthy (instance_id route) = true →
       instance_id route = Some (gw requested_route))
    ∧ (truthy (destination_cidr_block route) = true →
       destination_cidr_block route = Some (dest requested_route)).
Proof.
  unfold route_skipped.
  destruct (truthy (gateway_id route)), (truthy (instance_id route)),
    (truthy (destination_cidr_block route)); simpl;
    repeat (case_bool_decide; simpl); intuition congruence.
Qed.

(** [find_matching_route] is the first live route that is not passed over. *)
Lemma find_matching_route_find existing_routes requested_route subnet_mapper gateway :
  find_matching_route existing_routes requested_route subnet_mapper gateway
  = List.find (fun route => negb (route_skipped route requested_route gateway))
      existing_routes.
Proof.
  induction existing_routes as [|route rest IH]; simpl; [done|].
  destruct (route_skipped route requested_route gateway); simpl; [apply IH | done].
Qed.

Lemma find_matching_route_Some existing_routes requested_route subnet_mapper
    gateway route :
  find_matching_route existing_routes requested_route subnet_mapper gateway
    = Some route →
  route ∈ existing_routes ∧ route_skipped route requested_route gateway = false.
Proof.
  rewrite find_matching_route_find. intros Hfind.
  apply find_some in Hfind as [Hin Hskip].
  split; [by apply list_elem_of_In | by apply negb_true_iff].
Qed.

Lemma find_matching_route_None existing_routes requested_route subnet_mapper
    gateway :
  find_matching_route existing_routes requested_route subnet_mapper gateway = None ↔
  ∀ route, route ∈ existing_routes →
    route_skipped route requested_route gateway = true.
Proof.
  rewrite find_matching_route_find. split.
  - intros Hfind route Hin%list_elem_of_In.
    apply (find_none _ _ Hfind) in Hin. by apply negb_false_iff.
  - intros Hall. induction existing_routes as [|route rest IH]; simpl; [done|].
    rewrite (Hall route) by left. simpl. apply IH.
    intros r Hr. apply Hall. by right.
Qed.

(** C3: a live route that [find_matching_route] returns for a requested
    route is one of the live routes and satisfies it only under these
    conditions: when its gateway identifier is set, the requested gateway is
    the keyword [igw] and the identifier is that of the resolved gateway;
    when its instance identifier is set (in particular when the gateway
    identifier is not), it equals the requested gateway literally; when its
    destination is present, it equals the requested destination.  (Set and
    present are Python's truth test: neither [None] nor the empty string.) *)
Theorem find_matching_route_only_if (existing_routes : list Route)
    (requested_route : DesiredRoute) (subnet_mapper : gmap string Subnet)
    (gateway : Gateway) (route : Route) :
  find_matching_route existing_routes requested_route subnet_mapper gateway
    = Some route →
  route ∈ existing_routes
  ∧ (truthy (gateway_id route) = true →
       gw requested_route = "igw" ∧ gateway_id route = Some (igw_id gateway))
  ∧ (truthy (instance_id route) = true →
       instance_id route = Some (gw requested_route))
  ∧ (truthy (destination_cidr_block route) = true →
       destination_cidr_block route = Some (dest requested_route)).
Proof.
  intros [Hin Hskip]%find_matching_route_Some.
  split; [done | by apply route_skipped_false].
Qed.

Lemma find_matching_route_only_if_witness :
  find_matching_route [Net.local_route; Net.igw_route]
    {| dest := "0.0.0.0/0"; gw := "igw" |} Net.mapper Net.igw
    = Some Net.igw_route
  ∧ gateway_id Net.igw_route = Some (igw_id Net.igw)
  ∧ destination_cidr_block Net.igw_route = Some "0.0.0.0/0".
Proof.
  split; [reflexivity|].
  destruct (find_matching_route_only_if [Net.local_route; Net.igw_route]
              {| dest := "0.0.0.0/0"; gw := "igw" |} Net.mapper Net.igw
              Net.igw_route eq_refl) as (_ & Hgw & _ & Hdest).
  split; [apply Hgw | apply Hdest]; reflexivity.
Defined.

(** C9: a live route with neither a gateway nor an instance identifier set,
    whose destination is unset or the requested one, satisfies the
    requested route whatever its gateway specifier: it is not passed over,
    it is the answer when it comes first, and there is an answer whenever
    it is among the live routes. *)
Theorem bare_route_satisfies_any_gateway (route : Route)
    (requested_route : DesiredRoute) (subnet_mapper : gmap string Subnet)
    (gateway : Gateway) :
  truthy (gateway_id route) = false →
  truthy (instance_id route) = false →
  truthy (destination_cidr_block route) = false
    ∨ destination_cidr_block route = Some (dest requested_route) →
  route_skipped route requested_route gateway = false
  ∧ (∀ rest, find_matching_route (route :: rest) requested_route
               subnet_mapper gateway = Some route)
  ∧ (∀ existing_routes, route ∈ existing_routes →
       is_Some (find_matching_route existing_routes requested_route
                  subnet_mapper gateway)).
Proof.
  intros Hgw Hinst Hdest.
  assert (Hskip : route_skipped route requested_route gateway = false).
  { apply route_skipped_false. rewrite Hgw, Hinst.
    split_and!; [done | done |].
    destruct Hdest as [-> | ->]; done. }
  split_and!; [done | |].
  - intros rest. simpl. by rewrite Hskip.
  - intros existing_routes Hin.
    destruct (find_matching_route existing_routes requested_route
                subnet_mapper gateway) eqn:Hfind; [by eexists|].
    rewrite find_matching_route_None in Hfind.
    specialize (Hfind route Hin). congruence.
Qed.

Lemma bare_route_satisfies_any_gateway_witness :
  find_matching_route
    [{| destination_cidr_block := Some "10.1.0.0/16"; gateway_id := None;
        instance_id := None |}]
    {| dest := "10.1.0.0/16"; gw := "i-0123" |} Net.mapper Net.igw
  = Some {| destination_cidr_block := Some "10.1.0.0/16"; gateway_id := None;
            instance_id := None |}.
Proof.
  apply (bare_route_satisfies_any_gateway
           {| destination_cidr_block := Some "10.1.0.0/16"; gateway_id := None;
              instance_id := None |}
           {| dest := "10.1.0.0/16"; gw := "i-0123" |} Net.mapper Net.igw);
    [reflexivity | reflexivity | right; reflexivity].
Defined.

(** ** Table matching *)

Lemma bind_Return {A B : Type} (m : outcome A) (f : A → outcome B) (b : B) :
  m ≫= f = Return b ↔ ∃ a, m = Return a ∧ f a = Return b.
Proof.
  destruct m as [a|e]; simpl; split.
  - intros Hf. by exists a.
  - by intros (a' & [= <-] & Hf).
  - done.
  - by intros (a' & ? & _).
Qed.

Lemma table_matches_true table requested_table subnet_mapper gateway :
  table_matches table requested_table subnet_mapper gateway = Return true ↔
    length (req_routes requested_table) = length (non_local (routes table))
    ∧ routes_matched (non_local (routes table)) (req_routes requested_table)
        subnet_mapper gateway = true
    ∧ length (req_subnets requested_table) = length (associations table)
    ∧ subnets_matched (associations table) (req_subnets requested_table)
        subnet_mapper = Return true.
Proof.
  unfold table_matches.
  repeat (case_bool_decide; simpl);
    destruct (routes_matched _ _ _ _); simpl; intuition congruence.
Qed.

Lemma find_matching_table_Some existing_tables requested_table subnet_mapper
    gateway table :
  find_matching_table existing_tables requested_table subnet_mapper gateway
    = Return (Some table) →
  table ∈ existing_tables
  ∧ table_matches table requested_table subnet_mapper gateway = Return true.
Proof.
  induction existing_tables as [|t rest IH]; simpl; [done|].
  intros ([] & Hmatch & Hrest)%bind_Return.
  - injection Hrest as <-. split; [left | done].
  - destruct (IH Hrest) as [Hin Htrue]. split; [by right | done].
Qed.

(** C2: for every live table and requested table, the table matcher lets
    the pair through only when the requested routes are as many as the live
    routes without the [local] ones and the requested subnets are as many
    as the live associations; when either count differs the table does not
    match (and nothing is raised), so the scan goes on to the next table;
    and every table that [find_matching_table] returns has both counts
    equal. *)
Theorem table_matcher_cardinality (table : RouteTable)
    (requested_table : DesiredTable) (subnet_mapper : gmap string Subnet)
    (gateway : Gateway) :
  (table_matches table requested_table subnet_mapper gateway = Return true →
     length (req_routes requested_table) = length (non_local (routes table))
     ∧ length (req_subnets requested_table) = length (associations table))
  ∧ (length (req_routes requested_table) ≠ length (non_local (routes table))
     ∨ length (req_subnets requested_table) ≠ length (associations table) →
     table_matches table requested_table subnet_mapper gateway = Return false
     ∧ ∀ rest, find_matching_table (table :: rest) requested_table
                 subnet_mapper gateway
               = find_matching_table rest requested_table subnet_mapper gateway)
  ∧ (∀ existing_tables,
       find_matching_table existing_tables requested_table subnet_mapper gateway
         = Return (Some table) →
       table ∈ existing_tables
       ∧ length (req_routes requested_table) = length (non_local (routes table))
       ∧ length (req_subnets requested_table) = length (associations table)).
Proof.
  split_and!.
  - intros Htrue%table_matches_true. tauto.
  - intros Hdiff.
    assert (Hfalse : table_matches table requested_table subnet_mapper gateway
                     = Return false).
    { unfold table_matches.
      repeat (case_bool_decide; simpl); try done.
      - by destruct (routes_matched _ _ _ _).
      - tauto. }
    split; [done|]. intros rest. simpl. by rewrite Hfalse.
  - intros existing_tables [Hin Htrue%table_matches_true]%find_matching_table_Some.
    tauto.
Qed.

Lemma table_matcher_cardinality_witness :
  (table_matches (Net.public_table 1 "rtb-1" "rtbassoc-1") Net.want_public
     Net.mapper Net.igw = Return true
   ∧ length (req_routes Net.want_public) = 1
   ∧ length (non_local (routes (Net.public_table 1 "rtb-1" "rtbassoc-1"))) = 1)
  ∧ (length (req_subnets Net.want_public)
       ≠ length (associations (Net.bare_table 2 "rtb-2"))
     ∧ find_matching_table
         [Net.bare_table 2 "rtb-2"; Net.public_table 1 "rtb-1" "rtbassoc-1"]
         Net.want_public Net.mapper Net.igw
       = Return (Some (Net.public_table 1 "rtb-1" "rtbassoc-1"))).
Proof.
  split.
  - split; [reflexivity | split; reflexivity].
  - split; [simpl; lia|].
    destruct (table_matcher_cardinality (Net.bare_table 2 "rtb-2")
                Net.want_public Net.mapper Net.igw) as (_ & Hdiff & _).
    destruct Hdiff as [_ Hnext]; [right; simpl; lia|].
    rewrite Hnext. reflexivity.
Defined.

(** ** The planner *)

Lemma list_remove_Return x l l' :
  list_remove x l = Return l' →
  l' `sublist_of` l ∧ (NoDup (rt_obj <$> l) → rt_obj x ∉ rt_obj <$> l').
Proof.
  revert l'. induction l as [|y rest IH]; intros l'; simpl; [done|].
  case_bool_decide as Hobj.
  - intros [= <-]. split; [by apply sublist_cons|].
    intros [Hnotin _]%NoDup_cons. by rewrite <- Hobj.
  - intros (rest' & Hrem & [= <-])%bind_Return.
    destruct (IH _ Hrem) as [Hsub Hfresh]. split; [by apply sublist_skip|].
    intros [_ Hnodup]%NoDup_cons. rewrite fmap_cons, not_elem_of_cons.
    split; [congruence | by apply Hfresh].
Qed.

Lemma list_remove_absent x l :
  rt_obj x ∉ rt_obj <$> l → list_remove x l = Raise ValueError.
Proof.
  induction l as [|y rest IH]; simpl; [done|].
  rewrite not_elem_of_cons. intros [Hne Hrest].
  rewrite bool_decide_eq_false_2 by congruence.
  by rewrite IH.
Qed.

Lemma list_remove_present x l :
  x ∈ l → ∃ l', list_remove x l = Return l'.
Proof.
  induction l as [|y rest IH]; simpl; [by intros ?%elem_of_nil|].
  intros Hin. case_bool_decide as Hobj; [by eexists|].
  apply elem_of_cons in Hin as [-> | Hin]; [done|].
  destruct (IH Hin) as [l' ->]. by eexists.
Qed.

Lemma plan_loop_app existing_tables reqs1 reqs2 subnet_mapper gateways p :
  plan_loop existing_tables (reqs1 ++ reqs2) subnet_mapper gateways p
  = plan_loop existing_tables reqs1 subnet_mapper gateways p
      ≫= plan_loop existing_tables reqs2 subnet_mapper gateways.
Proof.
  revert p. induction reqs1 as [|req rest IH]; intros p; simpl; [done|].
  destruct (plan_step existing_tables subnet_mapper gateways p req); simpl;
    [apply IH | done].
Qed.

(** One turn of the loop: the match is looked for in [existing_tables], the
    removal is made in [old_tables]. *)
Lemma plan_step_Return existing_tables subnet_mapper gateways gateway p req p' :
  first_gateway gateways = Return gateway →
  plan_step existing_tables subnet_mapper gateways p req = Return p' →
  match find_matching_table existing_tables req subnet_mapper gateway with
  | Return (Some table) =>
      list_remove table (old_tables p) = Return (old_tables p')
      ∧ matched_tables p' = matched_tables p ++ [table]
      ∧ new_tables p' = new_tables p
  | Return None =>
      old_tables p' = old_tables p
      ∧ matched_tables p' = matched_tables p
      ∧ new_tables p' = new_tables p ++ [req]
  | Raise _ => False
  end.
Proof.
  intros Hgw. unfold plan_step. rewrite Hgw. simpl.
  destruct (find_matching_table existing_tables req subnet_mapper gateway)
    as [[table|]|e]; simpl; [| |done].
  - destruct (list_remove table (old_tables p)) as [old|e]; simpl; [|done].
    by intros [= <-].
  - by intros [= <-].
Qed.

Lemma plan_loop_Return existing_tables reqs subnet_mapper gateways gateway p p' :
  first_gateway gateways = Return gateway →
  plan_loop existing_tables reqs subnet_mapper gateways p = Return p' →
  old_tables p' `sublist_of` old_tables p
  ∧ matched_tables p'
    = matched_tables p ++ omap (scan existing_tables subnet_mapper gateway) reqs
  ∧ new_tables p'
    = new_tables p
      ++ List.filter (unmatched existing_tables subnet_mapper gateway) reqs.
Proof.
  intros Hgw. revert p. induction reqs as [|req rest IH]; intros p; simpl.
  - intros [= <-]. by rewrite !app_nil_r.
  - intros (p1 & Hstep & Hrest)%bind_Return.
    apply (plan_step_Return _ _ _ gateway) in Hstep; [|done].
    destruct (IH _ Hrest) as (Hsub & Hmatched & Hnew).
    unfold scan, unmatched in *.
    destruct (find_matching_table existing_tables req subnet_mapper gateway)
      as [[table|]|e]; [| |done].
    + destruct Hstep as (Hrem & Hm1 & Hn1).
      apply list_remove_Return in Hrem as [Hsub1 _].
      rewrite Hmatched, Hnew, Hm1, Hn1, <- app_assoc.
      split_and!; [by etrans | done | done].
    + destruct Hstep as (Ho1 & Hm1 & Hn1).
      rewrite Hmatched, Hnew, Hm1, Hn1, <- app_assoc, <- Ho1.
      split_and!; done.
Qed.

(** Once the object of a table is out of [old_tables], a further turn that
    matches the same table raises. *)
Lemma plan_step_same_table existing_tables subnet_mapper gateways gateway p req
    table :
  first_gateway gateways = Return gateway →
  find_matching_table existing_tables req subnet_mapper gateway
    = Return (Some table) →
  rt_obj table ∉ rt_obj <$> old_tables p →
  plan_step existing_tables subnet_mapper gateways p req = Raise ValueError.
Proof.
  intros Hgw Hfind Hgone. unfold plan_step. rewrite Hgw. simpl.
  rewrite Hfind. simpl. by rewrite list_remove_absent.
Qed.

Lemma sublist_obj_gone (table : RouteTable) (l1 l2 : list RouteTable) :
  l1 `sublist_of` l2 → rt_obj table ∉ rt_obj <$> l2 →
  rt_obj table ∉ rt_obj <$> l1.
Proof.
  intros Hsub Hgone Hin. apply Hgone.
  eapply elem_of_sublist; [done | by apply fmap_sublist].
Qed.

(** Two requested tables answered by the same live table: whatever the
    plan so far, the loop ends in an exception. *)
Lemma plan_loop_same_table_raises existing_tables subnet_mapper gateways gateway
    req1 req2 table p between after :
  first_gateway gateways = Return gateway →
  NoDup (rt_obj <$> existing_tables) →
  find_matching_table existing_tables req1 subnet_mapper gateway
    = Return (Some table) →
  find_matching_table existing_tables req2 subnet_mapper gateway
    = Return (Some table) →
  old_tables p `sublist_of` existing_tables →
  ∃ e, plan_loop existing_tables (req1 :: between ++ req2 :: after)
         subnet_mapper gateways p = Raise e
       ∧ (between = [] → e = ValueError).
Proof.
  intros Hgw Hnodup Hfind1 Hfind2 Hsub. simpl.
  destruct (plan_step existing_tables subnet_mapper gateways p req1)
    as [p1|e] eqn:Hstep1; simpl.
  2:{ exists e. split; [done|]. intros _.
      revert Hstep1. unfold plan_step. rewrite Hgw. simpl.
      rewrite Hfind1. simpl.
      destruct (list_remove table (old_tables p)) as [old|e'] eqn:Hrem;
        simpl; [done|].
      intros [= <-]. clear -Hrem.
      induction (old_tables p) as [|y rest IH] in Hrem |- *; simpl in *;
        [congruence|].
      case_bool_decide; [done|].
      destruct (list_remove table rest); simpl in *; [done | by apply IH]. }
  apply (plan_step_Return _ _ _ gateway) in Hstep1; [|done].
  rewrite Hfind1 in Hstep1. destruct Hstep1 as (Hrem & _ & _).
  apply list_remove_Return in Hrem as [Hsub1 Hgone].
  assert (Hgone1 : rt_obj table ∉ rt_obj <$> old_tables p1).
  { apply Hgone. eapply sublist_NoDup; [done | by apply fmap_sublist]. }
  rewrite plan_loop_app.
  destruct (plan_loop existing_tables between subnet_mapper gateways p1)
    as [p2|e] eqn:Hloop; simpl.
  2:{ exists e. split; [done|]. intros ->. done. }
  apply (plan_loop_Return _ _ _ _ gateway) in Hloop as (Hsub2 & _ & _);
    [|done].
  rewrite (plan_step_same_table _ _ _ gateway _ _ table); try done.
  - exists ValueError. done.
  - by eapply sublist_obj_gone.
Qed.



(** ** Runs of [main] *)

Lemma filter_sublist {A : Type} (f : A → bool) (l : list A) :
  List.filter f l `sublist_of` l.
Proof.
  induction l as [|x l IH]; simpl; [done|].
  destruct (f x); [by apply sublist_skip | by apply sublist_cons].
Qed.

Lemma without_main_NoDup (tables : list RouteTable) :
  NoDup (rt_obj <$> tables) → NoDup (rt_obj <$> without_main tables).
Proof.
  intros Hnodup. eapply sublist_NoDup; [done|].
  apply fmap_sublist, filter_sublist.
Qed.

Lemma create_routes_spec new_table_id gateway_ident table_routes :
  result (create_routes new_table_id gateway_ident table_routes) = Return tt
  ∧ Forall is_create (calls (create_routes new_table_id gateway_ident table_routes)).
Proof.
  induction table_routes as [|route rest [IHr IHc]]; simpl; [done|].
  unfold mbind, exec_bind.
  case_bool_decide; simpl; rewrite IHr; simpl; by split; [|constructor].
Qed.

Lemma associate_subnets_create new_table_id table_subnets subnet_mapper :
  Forall is_create
    (calls (associate_subnets new_table_id table_subnets subnet_mapper)).
Proof.
  induction table_subnets as [|subnet_cidr rest IH]; simpl; [done|].
  unfold mbind, exec_bind.
  destruct (subnet_mapper !! subnet_cidr) as [subnet|]; simpl; [|done].
  by constructor.
Qed.

Lemma create_tables_create created_id n vpc_ident gateway_ident tables
    subnet_mapper :
  Forall is_create
    (calls (create_tables created_id n vpc_ident gateway_ident tables
              subnet_mapper)).
Proof.
  revert n. induction tables as [|table rest IH]; intros n; simpl; [done|].
  unfold mbind, exec_bind. simpl.
  destruct (create_routes_spec (created_id n) gateway_ident (req_routes table))
    as [-> Hroutes]. simpl.
  pose proof (associate_subnets_create (created_id n) (req_subnets table)
                subnet_mapper) as Hassoc.
  destruct (result (associate_subnets _ _ _)); simpl.
  - specialize (IH (S n)).
    destruct (result (create_tables _ _ _ _ rest _)); simpl;
      constructor; try done; rewrite ?app_nil_r;
      repeat (apply Forall_app; split); done.
  - constructor; [done|]. by apply Forall_app.
Qed.

(** The shape of a run: nothing is called unless the plan is made; then the
    calls are those of [delete_tables] on [old_tables], followed by calls of
    [create_tables]. *)
Lemma main_calls (created_id : nat → string) (params : Params)
    (answers : Answers) :
  calls (main created_id params answers) = []
  ∨ ∃ tables p cs,
      p_route_tables params = Some tables
      ∧ plan (without_main (all_route_tables answers)) tables
          (build_subnet_mapper (all_subnets answers))
          (internet_gateways answers) = Return p
      ∧ calls (main created_id params answers)
        = delete_tables (old_tables p) ++ cs
      ∧ Forall is_create cs.
Proof.
  unfold main. case_bool_decide; [by left|].
  destruct (p_route_tables params) as [tables|]; simpl; [|by left].
  unfold mbind, exec_bind. simpl.
  destruct (plan _ _ _ _) as [p|e] eqn:Hplan; simpl; [|by left].
  right. exists tables, p.
  destruct (first_gateway _) as [gateway|e]; simpl.
  - pose proof (create_tables_create created_id 0 (vpc_ident answers)
                  (igw_id gateway) (new_tables p)
                  (build_subnet_mapper (all_subnets answers))) as Hcreate.
    destruct (result (create_tables _ _ _ _ _ _)); simpl;
      eexists; split_and!; try done; by rewrite ?app_nil_r.
  - exists []. by rewrite !app_nil_r.
Qed.

(** What a run that returns has done. *)
Lemma main_Return (created_id : nat → string) (params : Params)
    (answers : Answers) (response : Response) :
  result (main created_id params answers) = Return response →
  ∃ tables p,
    p_route_tables params = Some tables
    ∧ plan (without_main (all_route_tables answers)) tables
        (build_subnet_mapper (all_subnets answers))
        (internet_gateways answers) = Return p
    ∧ changed response = changed_of p
    ∧ route_tables response = format_response (final_route_tables answers).
Proof.
  unfold main. case_bool_decide; [done|].
  destruct (p_route_tables params) as [tables|]; simpl; [|done].
  unfold mbind, exec_bind. simpl.
  destruct (plan _ _ _ _) as [p|e] eqn:Hplan; simpl; [|done].
  destruct (first_gateway _) as [gateway|e]; simpl; [|done].
  destruct (result (create_tables _ _ _ _ _ _)); simpl; [|done].
  intros [= <-]. by exists tables, p.
Qed.

(** A run asked twice for the same table never answers [changed = false],
    whatever the live tables are (distinct objects): either the table is
    found in no live table and is to be created, or it is found twice in the
    same live table and the run raises. *)
Lemma duplicate_request_never_noop (created_id : nat → string)
    (params : Params) (answers : Answers) (requested_table : DesiredTable)
    (response : Response) :
  p_route_tables params = Some [requested_table; requested_table] →
  NoDup (rt_obj <$> all_route_tables answers) →
  result (main created_id params answers) = Return response →
  changed response = true.
Proof.
  intros Hparams Hnodup%without_main_NoDup
    (tables & p & Htables & Hplan & -> & _)%main_Return.
  rewrite Hparams in Htables. injection Htables as <-.
  destruct (internet_gateways answers) as [|gateway gateways] eqn:Hgws;
    [done|].
  destruct (find_matching_table (without_main (all_route_tables answers))
              requested_table (build_subnet_mapper (all_subnets answers))
              gateway) as [[table|]|e] eqn:Hfind.
  - destruct (plan_loop_same_table_raises _ _ (gateway :: gateways)
                gateway requested_table requested_table table
                {| new_tables := []; matched_tables := [];
                   old_tables := without_main (all_route_tables answers) |}
                [] [] eq_refl Hnodup Hfind Hfind)
      as (e & Hraise & _); [done|].
    unfold plan in Hplan. simpl app in Hraise. congruence.
  - apply (plan_loop_Return _ _ _ _ gateway) in Hplan as (_ & _ & Hnew);
      [|done].
    unfold changed_of. rewrite Hnew. simpl. unfold unmatched.
    rewrite Hfind. simpl. by rewrite orb_true_r.
  - unfold plan in Hplan. simpl in Hplan.
    apply bind_Return in Hplan as (p1 & Hstep & _).
    apply (plan_step_Return _ _ _ gateway) in Hstep; [|done].
    by rewrite Hfind in Hstep.
Qed.

(** C1 (the code departs from it): the live table that answered an earlier
    requested table is scanned again for a later one.  With one live table
    that satisfies two requested tables, and with two live tables that both
    do, the run raises [ValueError] before any call is made, where scanning
    only the unmatched live tables would plan one creation, and no change. *)
Theorem main_rescans_matched_table (st : State) (final : list RouteTable) :
  main Net.ids
    {| p_route_tables := Some [Net.want_bare; Net.want_bare]; p_state := st |}
    (Net.answers [Net.bare_table 1 "rtb-1"] final)
  = MkExec [] (Raise ValueError)
  ∧ main Net.ids
      {| p_route_tables := Some [Net.want_bare; Net.want_bare]; p_state := st |}
      (Net.answers [Net.bare_table 1 "rtb-1"; Net.bare_table 2 "rtb-2"] final)
    = MkExec [] (Raise ValueError)
  ∧ find_matching_table [Net.bare_table 2 "rtb-2"] Net.want_bare Net.mapper
      Net.igw
    = Return (Some (Net.bare_table 2 "rtb-2")).
Proof. split_and!; vm_compute; reflexivity. Qed.

(** C4 (the code departs from it): a first run on a network with no table
    but the main one, asked for the same table twice, creates two tables;
    the second run, on the two tables the first one made, raises
    [ValueError] instead of answering [changed = false]. *)
Theorem second_run_not_idempotent (st : State) (final : list RouteTable) :
  let params := {| p_route_tables := Some [Net.want_bare; Net.want_bare];
                   p_state := st |} in
  let made := [Net.bare_table 1 "rtb-new0"; Net.bare_table 2 "rtb-new1"] in
  main Net.ids params (Net.answers [] made)
  = MkExec
      [create_route_table "vpc-1";
       create_route "rtb-new0" "0.0.0.0/0" (Some "igw-1") None;
       create_route_table "vpc-1";
       create_route "rtb-new1" "0.0.0.0/0" (Some "igw-1") None]
      (Return {| changed := true;
                 route_tables := format_response (Net.main_table :: made) |})
  ∧ main Net.ids params (Net.answers made final)
    = MkExec [] (Raise ValueError).
Proof. split; vm_compute; reflexivity. Qed.

(** C8 (the code departs from it): [state] is read and never used, so a run
    with [absent] is the run with [present].  With [absent] and no
    [route_tables] the loop over [None] raises [TypeError] and nothing is
    torn down; with [absent] and a requested table, the table is created. *)
Theorem main_ignores_state (created_id : nat → string) (params : Params)
    (answers : Answers) :
  main created_id
    {| p_route_tables := p_route_tables params; p_state := absent |} answers
  = main created_id
      {| p_route_tables := p_route_tables params; p_state := present |} answers
  ∧ (∀ final,
       main Net.ids {| p_route_tables := None; p_state := absent |}
         (Net.answers [Net.public_table 1 "rtb-1" "rtbassoc-1"] final)
       = MkExec [] (Raise TypeError))
  ∧ (∀ final,
       main Net.ids {| p_route_tables := Some [Net.want_public];
                       p_state := absent |}
         (Net.answers [] final)
       = MkExec
           [create_route_table "vpc-1";
            create_route "rtb-new0" "0.0.0.0/0" (Some "igw-1") None;
            associate_route_table "rtb-new0" "subnet-1"]
           (Return {| changed := true;
                      route_tables := format_response (Net.main_table :: final) |})).
Proof. split_and!; [reflexivity | |]; intros final; vm_compute; reflexivity. Qed.

(** ** The main table *)

Lemma no_main_filter (l : list RouteAssociation) :
  length (List.filter assoc_main l) = 0 ↔ ∀ a, a ∈ l → assoc_main a = false.
Proof.
  induction l as [|x l IH]; simpl.
  - split; [by intros _ a ?%elem_of_nil | done].
  - destruct (assoc_main x) eqn:Hx; simpl.
    + split; [done|]. intros Hall. specialize (Hall x (list_elem_of_here _ _)).
      congruence.
    + rewrite IH. split.
      * intros Hall a [-> | Hin]%elem_of_cons; [done | by apply Hall].
      * intros Hall a Hin. apply Hall. by right.
Qed.

Lemma without_main_spec (table : RouteTable) (tables : list RouteTable) :
  table ∈ without_main tables ↔
  table ∈ tables ∧ ∀ a, a ∈ associations table → assoc_main a = false.
Proof.
  unfold without_main.
  rewrite list_elem_of_In, filter_In, <- list_elem_of_In,
    bool_decide_eq_true, no_main_filter.
  done.
Qed.

Lemma disassociate_all_spec (table_associations : list RouteAssociation)
    (is_main : bool) :
  (∀ c, c ∈ (disassociate_all table_associations is_main).1 →
     ∃ a, a ∈ table_associations ∧ assoc_main a = false
          ∧ c = disassociate_route_table (assoc_id a))
  ∧ ((disassociate_all table_associations is_main).2 = false ↔
     is_main = false ∧ ∀ a, a ∈ table_associations → assoc_main a = false).
Proof.
  revert is_main.
  induction table_associations as [|x l IH]; intros is_main; simpl.
  - split; [by intros c ?%elem_of_nil|].
    split; [intros ->; split; [done | by intros a ?%elem_of_nil] | tauto].
  - destruct (assoc_main x) eqn:Hx; simpl.
    + destruct (IH true) as [IHc IHm]. split.
      * intros c (a & Hin & Hmain & ->)%IHc. exists a. split; [by right | done].
      * rewrite IHm. split; [by intros [? _]|].
        intros [_ Hall]. specialize (Hall x (list_elem_of_here _ _)). congruence.
    + destruct (IH is_main) as [IHc IHm].
      destruct (disassociate_all l is_main) as [cs m]. simpl in *. split.
      * intros c [-> | Hin]%elem_of_cons.
        -- exists x. split; [left | done].
        -- destruct (IHc c Hin) as (a & Ha & Hmain & ->).
           exists a. split; [by right | done].
      * rewrite IHm. split.
        -- intros [-> Hall]. split; [done|].
           intros a [-> | Hin]%elem_of_cons; [done | by apply Hall].
        -- intros [-> Hall]. split; [done|]. intros a Hin. apply Hall. by right.
Qed.

(** Where the calls of [delete_tables] come from: a disassociation from an
    association that is not the main one, a deletion from a table that has
    no main association. *)
Lemma delete_tables_calls (tables : list RouteTable) (c : call) :
  c ∈ delete_tables tables →
  (∃ table a, table ∈ tables ∧ a ∈ associations table
              ∧ assoc_main a = false
              ∧ c = disassociate_route_table (assoc_id a))
  ∨ (∃ table, table ∈ tables
              ∧ (∀ a, a ∈ associations table → assoc_main a = false)
              ∧ c = delete_route_table (rt_id table)).
Proof.
  induction tables as [|t rest IH]; simpl; [by intros ?%elem_of_nil|].
  destruct (disassociate_all_spec (associations t) false) as [Hc Hm].
  destruct (disassociate_all (associations t) false) as [cs is_main].
  simpl in *. rewrite !elem_of_app.
  intros [Hin | [Hin | Hin]].
  - left. destruct (Hc c Hin) as (a & Ha & Hmain & ->).
    exists t, a. split_and!; try done. left.
  - right. destruct is_main; simpl in Hin; [by apply elem_of_nil in Hin|].
    apply list_elem_of_singleton in Hin as ->.
    exists t. split_and!; [left | by apply Hm | done].
  - destruct (IH Hin) as [(t' & a & Ht' & H) | (t' & Ht' & H)].
    + left. exists t', a. split; [by right | done].
    + right. exists t'. split; [by right | done].
Qed.

Lemma NoDup_fmap_eq {A B : Type} (f : A → B) (l : list A) (x y : A) :
  NoDup (f <$> l) → x ∈ l → y ∈ l → f x = f y → x = y.
Proof.
  induction l as [|z l IH]; [by intros _ ?%elem_of_nil|].
  rewrite fmap_cons, NoDup_cons. intros [Hz Hnodup].
  intros [-> | Hx]%elem_of_cons [-> | Hy]%elem_of_cons Heq; try done.
  - destruct Hz. rewrite Heq. by apply list_elem_of_fmap_2.
  - destruct Hz. rewrite <- Heq. by apply list_elem_of_fmap_2.
  - by apply IH.
Qed.

Lemma elem_of_concat {A : Type} (x : A) (ls : list (list A)) :
  x ∈ concat ls ↔ ∃ l, l ∈ ls ∧ x ∈ l.
Proof.
  rewrite list_elem_of_In, in_concat. split.
  - intros (l & Hl & Hx). exists l. by rewrite !list_elem_of_In.
  - intros (l & Hl & Hx). exists l. by rewrite <- !list_elem_of_In.
Qed.

Lemma concat_owner {A B : Type} (g : A → list B) (l : list A) (t1 t2 : A)
    (b : B) :
  NoDup (concat (g <$> l)) → t1 ∈ l → t2 ∈ l → b ∈ g t1 → b ∈ g t2 → t1 = t2.
Proof.
  induction l as [|x l IH]; [by intros _ ?%elem_of_nil|].
  rewrite fmap_cons. simpl. rewrite NoDup_app.
  intros (_ & Hdisj & Hnodup).
  assert (Hout : ∀ t, t ∈ l → b ∈ g t → b ∈ concat (g <$> l)).
  { intros t Ht Hb. apply elem_of_concat. exists (g t).
    split; [by apply list_elem_of_fmap_2 | done]. }
  intros [-> | H1]%elem_of_cons [-> | H2]%elem_of_cons Hb1 Hb2; try done.
  - destruct (Hdisj b Hb1). by apply (Hout t2).
  - destruct (Hdisj b Hb2). by apply (Hout t1).
  - by apply IH.
Qed.

(** With identifiers that are unique over all associations of all tables,
    two associations with the same identifier are in the same table. *)
Lemma association_owner (tables : list RouteTable) (t1 t2 : RouteTable)
    (a1 a2 : RouteAssociation) :
  NoDup (assoc_id <$> concat (associations <$> tables)) →
  t1 ∈ tables → t2 ∈ tables →
  a1 ∈ associations t1 → a2 ∈ associations t2 →
  assoc_id a1 = assoc_id a2 → t1 = t2.
Proof.
  intros Hnodup Ht1 Ht2 Ha1 Ha2 Heq.
  assert (a1 = a2) as <-.
  { apply (NoDup_fmap_eq assoc_id (concat (associations <$> tables)));
      try done; apply elem_of_concat.
    - exists (associations t1). split; [by apply list_elem_of_fmap_2 | done].
    - exists (associations t2). split; [by apply list_elem_of_fmap_2 | done]. }
  apply NoDup_fmap_1 in Hnodup.
  by apply (concat_owner associations tables t1 t2 a1).
Qed.

(** The three lists of a plan: [old_tables] and [matched_tables] hold
    existing tables, [new_tables] requested ones. *)
Lemma plan_Return_pools existing_tables requested_tables subnet_mapper
    gateways p :
  plan existing_tables requested_tables subnet_mapper gateways = Return p →
  old_tables p `sublist_of` existing_tables
  ∧ (∀ table, table ∈ matched_tables p → table ∈ existing_tables)
  ∧ (∀ req, req ∈ new_tables p → req ∈ requested_tables).
Proof.
  destruct gateways as [|gateway gateways].
  - destruct requested_tables as [|req rest]; [|done].
    intros [= <-]. simpl. split_and!; [done | |]; by intros ? ?%elem_of_nil.
  - intros (Hsub & Hm & Hn)%(plan_loop_Return _ _ _ _ gateway); [|done].
    simpl in *. split_and!; [done | |].
    + intros table. rewrite Hm, list_elem_of_omap.
      intros (req & _ & Hscan). unfold scan in Hscan.
      destruct (find_matching_table existing_tables req subnet_mapper gateway)
        as [found|] eqn:Hfind; [|done].
      subst found. by apply find_matching_table_Some in Hfind as [? _].
    + intros req. rewrite Hn, list_elem_of_In, filter_In, <- list_elem_of_In.
      tauto.
Qed.

(** C5: a live table that carries a main association is not among the
    tables that are matched ([without_main] drops it before the planner
    runs), so it is in none of the lists of a plan, and [new_tables] holds
    requested tables only; [delete_tables] does not delete such a table; and
    no call of a run deletes it or disassociates one of its associations
    (identifiers being unique, as the provider makes them). *)
Theorem main_table_never_touched (created_id : nat → string)
    (params : Params) (answers : Answers) (table : RouteTable) :
  table ∈ all_route_tables answers →
  (∃ a, a ∈ associations table ∧ assoc_main a = true) →
  (table ∉ without_main (all_route_tables answers))
  ∧ (∀ requested_tables subnet_mapper gateways p,
       plan (without_main (all_route_tables answers)) requested_tables
         subnet_mapper gateways = Return p →
       (table ∉ old_tables p) ∧ (table ∉ matched_tables p)
       ∧ ∀ req, req ∈ new_tables p → req ∈ requested_tables)
  ∧ (∀ ident, delete_route_table ident ∉ delete_tables [table])
  ∧ (NoDup (rt_id <$> all_route_tables answers) →
       delete_route_table (rt_id table)
         ∉ calls (main created_id params answers))
  ∧ (NoDup (assoc_id <$> concat (associations <$> all_route_tables answers)) →
       ∀ a, a ∈ associations table →
         disassociate_route_table (assoc_id a)
           ∉ calls (main created_id params answers)).
Proof.
  intros Hin (am & Ham & Hmain).
  assert (Hcarries : ¬ ∀ a, a ∈ associations table → assoc_main a = false).
  { intros Hall. specialize (Hall am Ham). congruence. }
  assert (Hout : table ∉ without_main (all_route_tables answers)).
  { rewrite without_main_spec. tauto. }
  split_and!; [done | | | |].
  - intros requested_tables subnet_mapper gateways p
      (Hsub & Hm & Hn)%plan_Return_pools.
    split_and!; [|by intros ?%Hm | done].
    intros Hold. apply Hout. by eapply elem_of_sublist.
  - intros ident [(t & a & _ & _ & _ & [=]) | (t & Ht & Hall & _)]%delete_tables_calls.
    apply list_elem_of_singleton in Ht as ->. done.
  - intros Hnodup Hcall.
    destruct (main_calls created_id params answers)
      as [Hnone | (tables & p & cs & _ & Hplan & Hcalls & Hcreate)].
    { rewrite Hnone in Hcall. by apply elem_of_nil in Hcall. }
    apply plan_Return_pools in Hplan as (Hsub & _ & _).
    rewrite Hcalls, elem_of_app in Hcall. destruct Hcall as [Hdel | Hcs].
    + apply delete_tables_calls in Hdel
        as [(t & a & _ & _ & _ & [=]) | (t & Ht & Hall & [= Hid])].
      assert (Ht' : t ∈ without_main (all_route_tables answers))
        by by eapply elem_of_sublist.
      apply without_main_spec in Ht' as [Ht' _].
      assert (table = t) as -> by by eapply NoDup_fmap_eq.
      done.
    + rewrite Forall_forall in Hcreate. by apply Hcreate in Hcs.
  - intros Hnodup a0 Ha0 Hcall.
    destruct (main_calls created_id params answers)
      as [Hnone | (tables & p & cs & _ & Hplan & Hcalls & Hcreate)].
    { rewrite Hnone in Hcall. by apply elem_of_nil in Hcall. }
    apply plan_Return_pools in Hplan as (Hsub & _ & _).
    rewrite Hcalls, elem_of_app in Hcall. destruct Hcall as [Hdel | Hcs].
    + apply delete_tables_calls in Hdel
        as [(t & a & Ht & Ha & _ & [= Hid]) | (t & _ & _ & [=])].
      assert (Ht' : t ∈ without_main (all_route_tables answers))
        by by eapply elem_of_sublist.
      apply without_main_spec in Ht' as [Ht' Hall].
      assert (table = t) as -> by by eapply association_owner.
      done.
    + rewrite Forall_forall in Hcreate. by apply Hcreate in Hcs.
Qed.

Lemma main_table_never_touched_witness :
  calls (main Net.ids {| p_route_tables := Some []; p_state := present |}
           (Net.answers [Net.public_table 1 "rtb-1" "rtbassoc-1"] []))
    = [disassociate_route_table "rtbassoc-1"; delete_route_table "rtb-1"]
  ∧ (delete_route_table "rtb-main"
      ∉ calls (main Net.ids {| p_route_tables := Some []; p_state := present |}
                 (Net.answers [Net.public_table 1 "rtb-1" "rtbassoc-1"] [])))
  ∧ (disassociate_route_table "rtbassoc-0"
      ∉ calls (main Net.ids {| p_route_tables := Some []; p_state := present |}
                 (Net.answers [Net.public_table 1 "rtb-1" "rtbassoc-1"] []))).
Proof.
  split; [vm_compute; reflexivity|].
  destruct (main_table_never_touched Net.ids
              {| p_route_tables := Some []; p_state := present |}
              (Net.answers [Net.public_table 1 "rtb-1" "rtbassoc-1"] [])
              Net.main_table)
    as (_ & _ & _ & Hdelete & Hdisassociate).
  - left.
  - eexists. split; [left | reflexivity].
  - split.
    + apply Hdelete. apply (bool_decide_unpack _). vm_compute. reflexivity.
    + apply (Hdisassociate ltac:(apply (bool_decide_unpack _); vm_compute; reflexivity)
               {| assoc_id := "rtbassoc-0"; subnet_id := None;
                  assoc_main := true |}).
      left.
Defined.

(** ** Creation *)

Lemma create_routes_calls new_table_id gateway_ident table_routes :
  Forall2 (creates_route new_table_id gateway_ident) table_routes
    (calls (create_routes new_table_id gateway_ident table_routes)).
Proof.
  induction table_routes as [|route rest IH]; simpl; [constructor|].
  unfold mbind, exec_bind.
  case_bool_decide as Higw; simpl; constructor; try done;
    [by left | by right].
Qed.

Lemma associate_subnets_calls new_table_id table_subnets subnet_mapper :
  (∀ s, s ∈ table_subnets → is_Some (subnet_mapper !! s)) →
  result (associate_subnets new_table_id table_subnets subnet_mapper)
    = Return tt
  ∧ Forall2 (associates_subnet new_table_id subnet_mapper) table_subnets
      (calls (associate_subnets new_table_id table_subnets subnet_mapper)).
Proof.
  induction table_subnets as [|s rest IH]; simpl; [by split; [|constructor]|].
  intros Hall. destruct (Hall s (list_elem_of_here _ _)) as [subnet Hs].
  destruct IH as [IHr IHc]; [intros s' Hs'; apply Hall; by right|].
  unfold mbind, exec_bind. simpl. rewrite Hs. simpl. split; [done|].
  constructor; [by exists subnet | done].
Qed.

(** A subnet block that is not in the lookup stops the associations with
    [KeyError], after the calls for the blocks before it. *)
Lemma associate_subnets_KeyError new_table_id table_subnets subnet_mapper s :
  s ∈ table_subnets → subnet_mapper !! s = None →
  result (associate_subnets new_table_id table_subnets subnet_mapper)
    = Raise KeyError.
Proof.
  induction table_subnets as [|s' rest IH]; simpl; [by intros ?%elem_of_nil|].
  intros Hin Hs. unfold mbind, exec_bind. simpl.
  destruct (subnet_mapper !! s') as [subnet|] eqn:Hs'; simpl; [|done].
  apply elem_of_cons in Hin as [-> | Hin]; [congruence|].
  by apply IH.
Qed.

Lemma create_tables_cons created_id n vpc_ident gateway_ident table rest
    subnet_mapper :
  result (associate_subnets (created_id n) (req_subnets table) subnet_mapper)
    = Return tt →
  calls (create_tables created_id n vpc_ident gateway_ident (table :: rest)
           subnet_mapper)
  = create_route_table vpc_ident
    :: calls (create_routes (created_id n) gateway_ident (req_routes table))
    ++ calls (associate_subnets (created_id n) (req_subnets table) subnet_mapper)
    ++ calls (create_tables created_id (S n) vpc_ident gateway_ident rest
                subnet_mapper)
  ∧ result (create_tables created_id n vpc_ident gateway_ident (table :: rest)
              subnet_mapper)
    = (new_ids ← result (create_tables created_id (S n) vpc_ident
                           gateway_ident rest subnet_mapper);
       Return (created_id n :: new_ids)).
Proof.
  intros Hassoc. simpl. unfold mbind, exec_bind. simpl.
  destruct (create_routes_spec (created_id n) gateway_ident (req_routes table))
    as [-> _]. simpl. rewrite Hassoc. simpl.
  destruct (result (create_tables created_id (S n) vpc_ident gateway_ident
                      rest subnet_mapper)); simpl;
    by rewrite ?app_nil_r.
Qed.

Lemma create_tables_app created_id n vpc_ident gateway_ident before after
    subnet_mapper :
  (∀ t, t ∈ before → ∀ s, s ∈ req_subnets t → is_Some (subnet_mapper !! s)) →
  calls (create_tables created_id n vpc_ident gateway_ident (before ++ after)
           subnet_mapper)
  = calls (create_tables created_id n vpc_ident gateway_ident before
             subnet_mapper)
    ++ calls (create_tables created_id (n + length before) vpc_ident
                gateway_ident after subnet_mapper).
Proof.
  revert n. induction before as [|t before IH]; intros n Hall.
  - simpl. by rewrite Nat.add_0_r.
  - destruct (associate_subnets_calls (created_id n) (req_subnets t)
                subnet_mapper) as [Hassoc _].
    { apply Hall. left. }
    change ((t :: before) ++ after) with (t :: (before ++ after)).
    destruct (create_tables_cons created_id n vpc_ident gateway_ident t
                (before ++ after) subnet_mapper Hassoc) as [-> _].
    destruct (create_tables_cons created_id n vpc_ident gateway_ident t
                before subnet_mapper Hassoc) as [-> _].
    rewrite IH.
    + simpl. rewrite <- !app_assoc. by rewrite Nat.add_succ_r.
    + intros t' Ht'. apply Hall. by right.
Qed.

(** When the subnet blocks of a table and of the tables before it are all
    keys of the lookup, the calls for the table are the creation of a table,
    the creations of its routes and the associations of its subnets. *)
Lemma create_tables_calls_resolved (created_id : nat → string) (n : nat)
    (vpc_ident gateway_ident : string) (before : list DesiredTable)
    (table : DesiredTable) (after : list DesiredTable)
    (subnet_mapper : gmap string Subnet) :
  (∀ t, t ∈ before ++ [table] →
     ∀ s, s ∈ req_subnets t → is_Some (subnet_mapper !! s)) →
  let new_table_id := created_id (n + length before) in
  ∃ route_calls subnet_calls,
    calls (create_tables created_id n vpc_ident gateway_ident
             (before ++ table :: after) subnet_mapper)
    = calls (create_tables created_id n vpc_ident gateway_ident before
               subnet_mapper)
      ++ create_route_table vpc_ident :: route_calls ++ subnet_calls
      ++ calls (create_tables created_id (S (n + length before)) vpc_ident
                  gateway_ident after subnet_mapper)
    ∧ Forall2 (creates_route new_table_id gateway_ident) (req_routes table)
        route_calls
    ∧ Forall2 (associates_subnet new_table_id subnet_mapper)
        (req_subnets table) subnet_calls.
Proof.
  intros Hall new_table_id.
  destruct (associate_subnets_calls new_table_id (req_subnets table)
              subnet_mapper) as [Hassoc Hsubnets].
  { apply Hall. apply elem_of_app. right. left. }
  exists (calls (create_routes new_table_id gateway_ident (req_routes table))),
    (calls (associate_subnets new_table_id (req_subnets table) subnet_mapper)).
  split_and!; [| apply create_routes_calls | done].
  rewrite create_tables_app.
  - by destruct (create_tables_cons created_id (n + length before) vpc_ident
                   gateway_ident table after subnet_mapper Hassoc) as [-> _].
  - intros t Ht. apply Hall. apply elem_of_app. by left.
Qed.

(** A run that returns has made the calls of [delete_tables] on
    [old_tables], then those of [create_tables] on [new_tables], with the
    identifier of the first gateway. *)
Lemma main_creates_new_tables (created_id : nat → string) (params : Params)
    (answers : Answers) (response : Response) :
  result (main created_id params answers) = Return response →
  ∃ tables p gateway,
    p_route_tables params = Some tables
    ∧ first_gateway (internet_gateways answers) = Return gateway
    ∧ plan (without_main (all_route_tables answers)) tables
        (build_subnet_mapper (all_subnets answers))
        (internet_gateways answers) = Return p
    ∧ calls (main created_id params answers)
      = delete_tables (old_tables p)
        ++ calls (create_tables created_id 0 (vpc_ident answers)
                    (igw_id gateway) (new_tables p)
                    (build_subnet_mapper (all_subnets answers))).
Proof.
  unfold main. case_bool_decide; [done|].
  destruct (p_route_tables params) as [tables|]; simpl; [|done].
  unfold mbind, exec_bind. simpl.
  destruct (plan _ _ _ _) as [p|e] eqn:Hplan; simpl; [|done].
  destruct (first_gateway _) as [gateway|e] eqn:Hgw; simpl; [|done].
  destruct (result (create_tables _ _ _ _ _ _)) eqn:Hcreate; simpl; [|done].
  intros _. exists tables, p, gateway. by rewrite app_nil_r.
Qed.

(** ** Subnet blocks that are not in the network *)

Lemma dict_lookup_Some (items : list (string * Subnet)) (k : string)
    (v : Subnet) :
  dict items !! k = Some v → (k, v) ∈ items.
Proof.
  unfold dict.
  assert (Hgen : ∀ m : gmap string Subnet,
    foldl (fun m item => <[item.1 := item.2]> m) m items !! k = Some v →
    m !! k = Some v ∨ (k, v) ∈ items).
  { induction items as [|[k' v'] items IH]; intros m; simpl; [by left|].
    intros [Hm | Hin]%IH; [|right; by right].
    simpl in Hm. destruct (decide (k' = k)) as [-> | Hne].
    - rewrite lookup_insert_eq in Hm. injection Hm as ->. right. left.
    - rewrite lookup_insert_ne in Hm by done. by left. }
  intros [Hempty | Hin]%Hgen; [|done].
  by rewrite lookup_empty in Hempty.
Qed.

Lemma dict_lookup_key (items : list (string * Subnet)) (k : string) :
  k ∈ items.*1 → is_Some (dict items !! k).
Proof.
  unfold dict.
  assert (Hgen : ∀ m : gmap string Subnet,
    is_Some (m !! k) ∨ k ∈ items.*1 →
    is_Some (foldl (fun m item => <[item.1 := item.2]> m) m items !! k)).
  { induction items as [|[k' v'] items IH]; intros m; simpl.
    - intros [Hm | Hin]; [done | by apply elem_of_nil in Hin].
    - intros [Hm | Hin]; apply IH; simpl.
      + left. destruct (decide (k' = k)) as [-> | Hne].
        * rewrite lookup_insert_eq. by eexists.
        * by rewrite lookup_insert_ne.
      + apply elem_of_cons in Hin as [-> | Hin]; [|by right].
        left. rewrite lookup_insert_eq. by eexists. }
  intros Hin. apply Hgen. by right.
Qed.

(** Every value of the lookup is a subnet of the network. *)
Lemma build_subnet_mapper_value (subnets : list Subnet) (k : string)
    (subnet : Subnet) :
  build_subnet_mapper subnets !! k = Some subnet → subnet ∈ subnets.
Proof.
  unfold build_subnet_mapper.
  intros [Hin | Hin]%dict_lookup_Some%elem_of_app;
    apply elem_of_map_to_list, dict_lookup_Some, list_elem_of_In, in_map_iff in Hin
      as (s & [= _ ->] & Hs); by apply list_elem_of_In.
Qed.

(** The identifier of every subnet of the network is a key of the lookup. *)
Lemma build_subnet_mapper_id (subnets : list Subnet) (subnet : Subnet) :
  subnet ∈ subnets → is_Some (build_subnet_mapper subnets !! sn_id subnet).
Proof.
  intros Hin. unfold build_subnet_mapper. apply dict_lookup_key.
  rewrite fmap_app, elem_of_app. left.
  destruct (dict_lookup_key
              (List.map (fun subnet => (sn_id subnet, subnet)) subnets)
              (sn_id subnet)) as [v Hv].
  { apply list_elem_of_fmap. exists (sn_id subnet, subnet). split; [done|].
    apply list_elem_of_In, in_map_iff. exists subnet.
    split; [done | by apply list_elem_of_In]. }
  apply list_elem_of_fmap. exists (sn_id subnet, v). split; [done|].
  by apply elem_of_map_to_list.
Qed.

(** No live association answers a block that none of its subnets has. *)
Lemma find_matching_association_absent existing_associations requested_subnet
    subnet_mapper :
  (∀ a, a ∈ existing_associations →
     ∃ subnet, getitem subnet_mapper (subnet_id a) = Return subnet
               ∧ cidr_block subnet ≠ requested_subnet) →
  find_matching_association existing_associations requested_subnet subnet_mapper
    = Return None.
Proof.
  induction existing_associations as [|a rest IH]; simpl; [done|].
  intros Hall. destruct (Hall a (list_elem_of_here _ _)) as (subnet & -> & Hne).
  simpl. rewrite bool_decide_eq_false_2 by congruence.
  apply IH. intros a' Ha'. apply Hall. by right.
Qed.

Lemma find_matching_association_total existing_associations requested_subnet
    subnet_mapper :
  (∀ a, a ∈ existing_associations →
     ∃ subnet, getitem subnet_mapper (subnet_id a) = Return subnet) →
  ∃ found, find_matching_association existing_associations requested_subnet
             subnet_mapper = Return found.
Proof.
  induction existing_associations as [|a rest IH]; simpl; [by eexists|].
  intros Hall. destruct (Hall a (list_elem_of_here _ _)) as (subnet & ->).
  simpl. case_bool_decide; [by eexists|].
  apply IH. intros a' Ha'. apply Hall. by right.
Qed.

Lemma subnets_matched_absent live_associations requested_subnets subnet_mapper s :
  s ∈ requested_subnets →
  (∀ a, a ∈ live_associations →
     ∃ subnet, getitem subnet_mapper (subnet_id a) = Return subnet
               ∧ cidr_block subnet ≠ s) →
  subnets_matched live_associations requested_subnets subnet_mapper
    = Return false.
Proof.
  intros Hin Hall.
  induction requested_subnets as [|s' rest IH]; simpl;
    [by apply elem_of_nil in Hin|].
  destruct (decide (s' = s)) as [-> | Hne].
  - by rewrite find_matching_association_absent.
  - destruct (find_matching_association_total live_associations s' subnet_mapper)
      as [[a|] ->]; simpl; [|apply IH|done].
    + intros a Ha. destruct (Hall a Ha) as (subnet & Hget & _). by exists subnet.
    + apply elem_of_cons in Hin as [-> | Hin]; done.
Qed.

(** C7: a requested table that names a subnet block which no subnet of the
    network has is matched by no live table, and the matching raises
    nothing (the live associations being associations with subnets of the
    network): [find_matching_table] returns [None], the turn of the loop
    puts the table in [new_tables], and every plan that is returned has it
    there. *)
Theorem unresolved_subnet_no_match (subnets : list Subnet)
    (existing_tables : list RouteTable) (requested_table : DesiredTable)
    (gateway : Gateway) (s : string) :
  s ∈ req_subnets requested_table →
  (∀ subnet, subnet ∈ subnets → cidr_block subnet ≠ s) →
  (∀ table a, table ∈ existing_tables → a ∈ associations table →
     ∃ subnet, subnet ∈ subnets ∧ subnet_id a = Some (sn_id subnet)) →
  let subnet_mapper := build_subnet_mapper subnets in
  find_matching_table existing_tables requested_table subnet_mapper gateway
    = Return None
  ∧ (∀ gateways p,
       plan_step existing_tables subnet_mapper (gateway :: gateways) p
         requested_table
       = Return {| new_tables := new_tables p ++ [requested_table];
                   matched_tables := matched_tables p;
                   old_tables := old_tables p |})
  ∧ (∀ gateways before after p,
       plan existing_tables (before ++ requested_table :: after) subnet_mapper
         (gateway :: gateways) = Return p →
       requested_table ∈ new_tables p).
Proof.
  intros Hs Habsent Hlive subnet_mapper.
  assert (Hfind : find_matching_table existing_tables requested_table
                    subnet_mapper gateway = Return None).
  { induction existing_tables as [|table rest IH]; simpl; [done|].
    assert (Hfalse : table_matches table requested_table subnet_mapper gateway
                     = Return false).
    { unfold table_matches.
      case_bool_decide; [done|].
      destruct (routes_matched _ _ _ _); simpl; [|done].
      case_bool_decide; [done|].
      apply (subnets_matched_absent _ _ _ s); [done|].
      intros a Ha.
      destruct (Hlive table a (list_elem_of_here _ _) Ha)
        as (subnet & Hsubnet & Hid).
      destruct (build_subnet_mapper_id subnets subnet Hsubnet) as [v Hv].
      exists v. rewrite Hid. simpl. fold subnet_mapper in Hv |- *.
      rewrite Hv. split; [done|].
      apply Habsent. by eapply build_subnet_mapper_value. }
    rewrite Hfalse. simpl. apply IH.
    intros t a Ht. apply Hlive. by right. }
  split_and!; [done | |].
  - intros gateways p. unfold plan_step. simpl. by rewrite Hfind.
  - intros gateways before after p
      (_ & _ & Hnew)%(plan_loop_Return _ _ _ _ gateway); [|done].
    rewrite Hnew. simpl. rewrite list_elem_of_In, filter_In, <- list_elem_of_In.
    split; [apply elem_of_app; right; left|].
    unfold unmatched. by rewrite Hfind.
Qed.

Lemma unresolved_subnet_no_match_witness :
  find_matching_table [Net.public_table 1 "rtb-1" "rtbassoc-1"] Net.want_typo
    (build_subnet_mapper [Net.subnet1]) Net.igw
  = Return None.
Proof.
  apply (unresolved_subnet_no_match [Net.subnet1]
           [Net.public_table 1 "rtb-1" "rtbassoc-1"] Net.want_typo Net.igw
           "10.0.9.0/24").
  - left.
  - intros subnet ->%list_elem_of_singleton. vm_compute. discriminate.
  - intros table a ->%list_elem_of_singleton ->%list_elem_of_singleton.
    exists Net.subnet1. split; [left | reflexivity].
Defined.

(** What follows for such a table once it is to be created: the table and
    its routes are created, and the association of the block that is in no
    key of the lookup raises [KeyError]. *)
Lemma create_tables_unresolved_subnet (created_id : nat → string) (n : nat)
    (vpc_ident gateway_ident : string) (table : DesiredTable)
    (rest : list DesiredTable) (subnet_mapper : gmap string Subnet)
    (s : string) :
  s ∈ req_subnets table → subnet_mapper !! s = None →
  result (create_tables created_id n vpc_ident gateway_ident (table :: rest)
            subnet_mapper) = Raise KeyError
  ∧ ∃ cs, calls (create_tables created_id n vpc_ident gateway_ident
                   (table :: rest) subnet_mapper)
          = create_route_table vpc_ident :: cs.
Proof.
  intros Hs Hnone. simpl. unfold mbind, exec_bind. simpl.
  destruct (create_routes_spec (created_id n) gateway_ident (req_routes table))
    as [-> _]. simpl.
  rewrite (associate_subnets_KeyError _ _ _ s) by done. simpl.
  split; [done | by eexists].
Qed.

(** The run of such a request on the sample network: the live table is
    deleted, a table and its route are created, and the run raises
    [KeyError]. *)
Lemma unresolved_subnet_run (final : list RouteTable) :
  main Net.ids {| p_route_tables := Some [Net.want_typo]; p_state := present |}
    (Net.answers [Net.public_table 1 "rtb-1" "rtbassoc-1"] final)
  = MkExec
      [disassociate_route_table "rtbassoc-1"; delete_route_table "rtb-1";
       create_route_table "vpc-1";
       create_route "rtb-new0" "0.0.0.0/0" (Some "igw-1") None]
      (Raise KeyError).
Proof. vm_compute. reflexivity. Qed.

(** ** Scenarios on the sample network *)

(** A requested table on a network that has only its main table: the table,
    its route through the gateway and its association are created. *)
Example scenario_create (final : list RouteTable) :
  main Net.ids {| p_route_tables := Some [Net.want_public]; p_state := present |}
    (Net.answers [] final)
  = MkExec
      [create_route_table "vpc-1";
       create_route "rtb-new0" "0.0.0.0/0" (Some "igw-1") None;
       associate_route_table "rtb-new0" "subnet-1"]
      (Return {| changed := true;
                 route_tables := format_response (Net.main_table :: final) |}).
Proof. vm_compute. reflexivity. Qed.

(** The same request once the table exists: no call, no change. *)
Example scenario_noop (final : list RouteTable) :
  main Net.ids {| p_route_tables := Some [Net.want_public]; p_state := present |}
    (Net.answers [Net.public_table 1 "rtb-new0" "rtbassoc-1"] final)
  = MkExec []
      (Return {| changed := false;
                 route_tables := format_response (Net.main_table :: final) |}).
Proof. vm_compute. reflexivity. Qed.

(** An empty request with a live table: its association is removed, then
    the table is deleted; the main table is left. *)
Example scenario_teardown (final : list RouteTable) :
  main Net.ids {| p_route_tables := Some []; p_state := present |}
    (Net.answers [Net.public_table 1 "rtb-1" "rtbassoc-1"] final)
  = MkExec
      [disassociate_route_table "rtbassoc-1"; delete_route_table "rtb-1"]
      (Return {| changed := true;
                 route_tables := format_response (Net.main_table :: final) |}).
Proof. vm_compute. reflexivity. Qed.

(** * Further properties of the code *)

(** ** Associations and tables, case by case *)

(** X1: the three outcomes of [find_matching_association].  It returns an
    association exactly when that association is the first whose subnet has
    the requested block, the ones before it being in the lookup; it returns
    [None] exactly when every association is in the lookup with another
    block; it raises exactly when an association that is not in the lookup
    (or has no subnet) comes before any that has the block, and what it
    raises is [KeyError]. *)
Theorem find_matching_association_outcomes
    (existing_associations : list RouteAssociation) (requested_subnet : string)
    (subnet_mapper : gmap string Subnet) :
  (∀ a, find_matching_association existing_associations requested_subnet
          subnet_mapper = Return (Some a) ↔
        ∃ before after subnet,
          existing_associations = before ++ a :: after
          ∧ Forall (passed_over subnet_mapper requested_subnet) before
          ∧ getitem subnet_mapper (subnet_id a) = Return subnet
          ∧ cidr_block subnet = requested_subnet)
  ∧ (find_matching_association existing_associations requested_subnet
       subnet_mapper = Return None ↔
     Forall (passed_over subnet_mapper requested_subnet) existing_associations)
  ∧ (∀ e, find_matching_association existing_associations requested_subnet
            subnet_mapper = Raise e ↔
          e = KeyError
          ∧ ∃ before a after,
              existing_associations = before ++ a :: after
              ∧ Forall (passed_over subnet_mapper requested_subnet) before
              ∧ getitem subnet_mapper (subnet_id a) = Raise KeyError).
Proof.
  assert (Hget : ∀ key e, getitem subnet_mapper key = Raise e → e = KeyError).
  { intros [k|] e; simpl; [destruct (subnet_mapper !! k)|]; congruence. }
  induction existing_associations as [|x l (IHs & IHn & IHr)].
  { simpl. split_and!.
    - intros a. split; [done|]. intros ([|??] & ? & ? & ? & _); done.
    - done.
    - intros e. split; [done|]. intros (_ & [|??] & ? & ? & ? & _); done. }
  simpl.
  destruct (getitem subnet_mapper (subnet_id x)) as [subnet|e0] eqn:Hx; simpl.
  - case_bool_decide as Hblock.
    + split_and!.
      * intros a. split.
        -- intros [= <-]. exists [], l, subnet. by rewrite Hblock.
        -- intros ([|y before] & after & sub' & Heq & Hbefore & Ha & Hsub').
           ++ simpl in Heq. by injection Heq as -> _.
           ++ simpl in Heq. injection Heq as <- _.
              apply Forall_cons in Hbefore as [(sub'' & Hy & Hne) _].
              congruence.
      * split; [done|].
        intros [(sub' & Hy & Hne) _]%Forall_cons. congruence.
      * intros e. split; [done|].
        intros (_ & [|y before] & a & after & Heq & Hbefore & Ha);
          simpl in Heq.
        -- injection Heq as <- _. congruence.
        -- injection Heq as <- _.
           apply Forall_cons in Hbefore as [(sub'' & Hy & Hne) _]. congruence.
    + assert (Hover : passed_over subnet_mapper requested_subnet x).
      { exists subnet. split; [done | congruence]. }
      split_and!.
      * intros a. rewrite IHs. split.
        -- intros (before & after & sub' & -> & Hbefore & Ha & Hsub').
           exists (x :: before), after, sub'. split_and!; try done.
           by constructor.
        -- intros ([|y before] & after & sub' & Heq & Hbefore & Ha & Hsub');
             simpl in Heq.
           ++ injection Heq as <- _. congruence.
           ++ injection Heq as <- ->.
              apply Forall_cons in Hbefore as [_ Hbefore].
              by exists before, after, sub'.
      * rewrite IHn, Forall_cons. tauto.
      * intros e. rewrite IHr. split.
        -- intros (-> & before & a & after & -> & Hbefore & Ha).
           split; [done|]. exists (x :: before), a, after.
           split_and!; try done. by constructor.
        -- intros (-> & [|y before] & a & after & Heq & Hbefore & Ha);
             simpl in Heq.
           ++ injection Heq as <- _. congruence.
           ++ injection Heq as <- ->.
              apply Forall_cons in Hbefore as [_ Hbefore].
              split; [done|]. by exists before, a, after.
  - pose proof (Hget _ _ Hx) as ->. split_and!.
    + intros a. split; [done|].
      intros ([|y before] & after & sub' & Heq & Hbefore & Ha & Hsub');
        simpl in Heq.
      * injection Heq as <- _. congruence.
      * injection Heq as <- _.
        apply Forall_cons in Hbefore as [(sub'' & Hy & Hne) _]. congruence.
    + split; [done|].
      intros [(sub' & Hy & Hne) _]%Forall_cons. congruence.
    + intros e. split.
      * intros [= <-]. split; [done|]. by exists [], x, l.
      * by intros [-> _].
Qed.

(** X2: the three outcomes of [find_matching_table].  It returns the first
    existing table whose loop turn ends in a match, the turns of the tables
    before it ending in no match; it returns [None] exactly when the turn of
    every table ends in no match; it raises exactly when the turn of some
    table raises, the turns of the tables before it ending in no match (so a
    live table with an association out of the lookup hides the matching
    tables that come after it). *)
Theorem find_matching_table_outcomes (existing_tables : list RouteTable)
    (requested_table : DesiredTable) (subnet_mapper : gmap string Subnet)
    (gateway : Gateway) :
  let turn table := table_matches table requested_table subnet_mapper gateway in
  (∀ table, find_matching_table existing_tables requested_table subnet_mapper
              gateway = Return (Some table) ↔
            ∃ before after,
              existing_tables = before ++ table :: after
              ∧ Forall (fun t => turn t = Return false) before
              ∧ turn table = Return true)
  ∧ (find_matching_table existing_tables requested_table subnet_mapper gateway
       = Return None ↔
     Forall (fun t => turn t = Return false) existing_tables)
  ∧ (∀ e, find_matching_table existing_tables requested_table subnet_mapper
            gateway = Raise e ↔
          ∃ before table after,
            existing_tables = before ++ table :: after
            ∧ Forall (fun t => turn t = Return false) before
            ∧ turn table = Raise e).
Proof.
  intros turn.
  induction existing_tables as [|x l (IHs & IHn & IHr)].
  { simpl. split_and!.
    - intros t. split; [done|]. intros ([|??] & ? & ? & _); done.
    - done.
    - intros e. split; [done|]. intros ([|??] & ? & ? & ? & _); done. }
  simpl. fold (turn x).
  destruct (turn x) as [[]|e0] eqn:Hx; simpl.
  - split_and!.
    + intros t. split.
      * intros [= <-]. by exists [], l.
      * intros ([|y before] & after & Heq & Hbefore & Ht); simpl in Heq.
        -- by injection Heq as -> _.
        -- injection Heq as <- _.
           apply Forall_cons in Hbefore as [Hy _]. congruence.
    + split; [done|]. intros [Hy _]%Forall_cons. congruence.
    + intros e. split; [done|].
      intros ([|y before] & t & after & Heq & Hbefore & Ht); simpl in Heq.
      * injection Heq as <- _. congruence.
      * injection Heq as <- _.
        apply Forall_cons in Hbefore as [Hy _]. congruence.
  - split_and!.
    + intros t. rewrite IHs. split.
      * intros (before & after & -> & Hbefore & Ht).
        exists (x :: before), after. split_and!; try done. by constructor.
      * intros ([|y before] & after & Heq & Hbefore & Ht); simpl in Heq.
        -- injection Heq as <- _. congruence.
        -- injection Heq as <- ->.
           apply Forall_cons in Hbefore as [_ Hbefore]. by exists before, after.
    + rewrite IHn, Forall_cons. tauto.
    + intros e. rewrite IHr. split.
      * intros (before & t & after & -> & Hbefore & Ht).
        exists (x :: before), t, after. split_and!; try done. by constructor.
      * intros ([|y before] & t & after & Heq & Hbefore & Ht); simpl in Heq.
        -- injection Heq as <- _. congruence.
        -- injection Heq as <- ->.
           apply Forall_cons in Hbefore as [_ Hbefore].
           by exists before, t, after.
  - split_and!.
    + intros t. split; [done|].
      intros ([|y before] & after & Heq & Hbefore & Ht); simpl in Heq.
      * injection Heq as <- _. congruence.
      * injection Heq as <- _.
        apply Forall_cons in Hbefore as [Hy _]. congruence.
    + split; [done|]. intros [Hy _]%Forall_cons. congruence.
    + intros e. split.
      * intros [= <-]. by exists [], x, l.
      * intros ([|y before] & t & after & Heq & Hbefore & Ht); simpl in Heq.
        -- injection Heq as <- _. congruence.
        -- injection Heq as <- _.
           apply Forall_cons in Hbefore as [Hy _]. congruence.
Qed.

Lemma routes_matched_true live_routes requested_routes subnet_mapper gateway :
  routes_matched live_routes requested_routes subnet_mapper gateway = true ↔
  ∀ r, r ∈ requested_routes →
    is_Some (find_matching_route live_routes r subnet_mapper gateway).
Proof.
  induction requested_routes as [|r rest IH]; simpl.
  - split; [by intros _ r ?%elem_of_nil | done].
  - destruct (find_matching_route live_routes r subnet_mapper gateway) eqn:Hr.
    + rewrite IH. split.
      * intros Hall r' [-> | Hin]%elem_of_cons; [by rewrite Hr | by apply Hall].
      * intros Hall r' Hin. apply Hall. by right.
    + split; [done|]. intros Hall.
      destruct (Hall r (list_elem_of_here _ _)) as [? Hsome]. congruence.
Qed.

Lemma subnets_matched_true live_associations requested_subnets subnet_mapper :
  subnets_matched live_associations requested_subnets subnet_mapper
    = Return true ↔
  ∀ s, s ∈ requested_subnets →
    ∃ a, find_matching_association live_associations s subnet_mapper
         = Return (Some a).
Proof.
  induction requested_subnets as [|s rest IH]; simpl.
  - split; [by intros _ s ?%elem_of_nil | done].
  - destruct (find_matching_association live_associations s subnet_mapper)
      as [[a|]|e] eqn:Hs; simpl.
    + rewrite IH. split.
      * intros Hall s' [-> | Hin]%elem_of_cons; [by exists a | by apply Hall].
      * intros Hall s' Hin. apply Hall. by right.
    + split; [done|]. intros Hall.
      destruct (Hall s (list_elem_of_here _ _)) as [? Hsome]. congruence.
    + split; [done|]. intros Hall.
      destruct (Hall s (list_elem_of_here _ _)) as [? Hsome]. congruence.
Qed.

(** X3: matching looks each requested route and each requested subnet up on
    its own, so it does not pair them one to one with the live ones.  A live
    table that matches a requested table also matches every requested table
    that has as many routes and as many subnets, all taken among those of
    the first (a route or a block repeated in place of another, say). *)
Theorem table_matches_not_one_to_one (table : RouteTable)
    (requested_table other : DesiredTable) (subnet_mapper : gmap string Subnet)
    (gateway : Gateway) :
  table_matches table requested_table subnet_mapper gateway = Return true →
  length (req_routes other) = length (req_routes requested_table) →
  (∀ r, r ∈ req_routes other → r ∈ req_routes requested_table) →
  length (req_subnets other) = length (req_subnets requested_table) →
  (∀ s, s ∈ req_subnets other → s ∈ req_subnets requested_table) →
  table_matches table other subnet_mapper gateway = Return true.
Proof.
  rewrite !table_matches_true, !routes_matched_true, !subnets_matched_true.
  intros (Hlr & Hroutes & Hls & Hsubnets) Hlr' Hr' Hls' Hs'.
  split_and!; [congruence | | congruence |].
  - intros r Hr. apply Hroutes. by apply Hr'.
  - intros s Hs. apply Hsubnets. by apply Hs'.
Qed.

Lemma table_matches_not_one_to_one_witness :
  let table :=
    {| rt_obj := 1; rt_id := "rtb-1";
       routes := [Net.local_route; Net.igw_route;
                  {| destination_cidr_block := Some "10.8.0.0/16";
                     gateway_id := None; instance_id := Some "i-0123" |}];
       associations := [] |} in
  table_matches table
    {| req_routes := [{| dest := "0.0.0.0/0"; gw := "igw" |};
                      {| dest := "0.0.0.0/0"; gw := "igw" |}];
       req_subnets := [] |} Net.mapper Net.igw
  = Return true.
Proof.
  intros table.
  apply (table_matches_not_one_to_one table
           {| req_routes := [{| dest := "0.0.0.0/0"; gw := "igw" |};
                             {| dest := "10.8.0.0/16"; gw := "i-0123" |}];
              req_subnets := [] |}).
  - vm_compute. reflexivity.
  - reflexivity.
  - intros r [-> | ->%list_elem_of_singleton]%elem_of_cons; left.
  - reflexivity.
  - intros s Hs. by apply elem_of_nil in Hs.
Defined.

Lemma find_matching_association_same_subnets (l1 l2 : list RouteAssociation)
    (requested_subnet : string) (subnet_mapper : gmap string Subnet) :
  subnet_id <$> l1 = subnet_id <$> l2 →
  match find_matching_association l1 requested_subnet subnet_mapper,
        find_matching_association l2 requested_subnet subnet_mapper with
  | Return (Some _), Return (Some _) | Return None, Return None => True
  | Raise e1, Raise e2 => e1 = e2
  | _, _ => False
  end.
Proof.
  revert l2. induction l1 as [|a1 l1 IH]; intros [|a2 l2]; simpl; try done.
  intros [= Hid Hrest]. rewrite <- Hid.
  destruct (getitem subnet_mapper (subnet_id a1)) as [subnet|e]; simpl; [|done].
  case_bool_decide; [done | by apply IH].
Qed.

(** X4: what [format_response] reports of a live table is all that matching
    reads of it: two live tables with the same entry in the report (the
    identifier of the object and those of the associations apart) match the
    same requested tables and raise alike. *)
Theorem report_determines_matching (table1 table2 : RouteTable)
    (requested_table : DesiredTable) (subnet_mapper : gmap string Subnet)
    (gateway : Gateway) :
  format_response [table1] = format_response [table2] →
  table_matches table1 requested_table subnet_mapper gateway
  = table_matches table2 requested_table subnet_mapper gateway.
Proof.
  unfold format_response. simpl. intros [= _ Hroutes Hassocs].
  assert (Hr : routes table1 = routes table2).
  { revert Hroutes. generalize (routes table1) (routes table2).
    induction l as [|[] l IH]; intros [|[] l']; simpl; try done.
    intros [= -> -> -> Hrest]. f_equal. by apply IH. }
  assert (Hs : subnet_id <$> associations table1
               = subnet_id <$> associations table2).
  { revert Hassocs. generalize (associations table1) (associations table2).
    induction l as [|a l IH]; intros [|a' l']; simpl; try done.
    intros [= Hid _ Hrest]. f_equal; [done | by apply IH]. }
  unfold table_matches. rewrite Hr.
  rewrite <- (length_fmap subnet_id (associations table1)), Hs, length_fmap.
  case_bool_decide; [done|].
  destruct (routes_matched _ _ _ _); simpl; [|done].
  case_bool_decide as Hlen; [done|]. clear Hlen.
  induction (req_subnets requested_table) as [|s rest IH]; simpl; [done|].
  pose proof (find_matching_association_same_subnets _ _ s subnet_mapper Hs)
    as Hsame.
  destruct (find_matching_association (associations table1) s subnet_mapper)
    as [[?|]|?],
    (find_matching_association (associations table2) s subnet_mapper)
    as [[?|]|?]; simpl; try done.
  by subst.
Qed.

Lemma report_determines_matching_witness :
  table_matches (Net.public_table 7 "rtb-1" "rtbassoc-7") Net.want_public
    Net.mapper Net.igw
  = table_matches (Net.public_table 1 "rtb-1" "rtbassoc-1") Net.want_public
      Net.mapper Net.igw.
Proof.
  apply (report_determines_matching (Net.public_table 7 "rtb-1" "rtbassoc-7")
           (Net.public_table 1 "rtb-1" "rtbassoc-1")).
  reflexivity.
Defined.

(** ** The subnet lookup *)

Lemma foldl_insert_lookup (key : Subnet → string) (subnets : list Subnet)
    (m : gmap string Subnet) (k : string) :
  foldl (fun m item => <[item.1 := item.2]> m) m
    (List.map (fun subnet => (key subnet, subnet)) subnets) !! k
  = match last_with key k subnets with
    | Some subnet => Some subnet
    | None => m !! k
    end.
Proof.
  revert m. unfold last_with.
  induction subnets as [|x l IH]; intros m; simpl; [done|].
  rewrite IH. simpl. case_bool_decide as Hk.
  - rewrite last_cons.
    destruct (last (List.filter _ l)); [done|].
    by rewrite <- Hk, lookup_insert_eq.
  - destruct (last (List.filter _ l)); [done|].
    by rewrite lookup_insert_ne.
Qed.

Lemma dict_lookup_last (key : Subnet → string) (subnets : list Subnet)
    (k : string) :
  dict (List.map (fun subnet => (key subnet, subnet)) subnets) !! k
  = last_with key k subnets.
Proof.
  unfold dict. rewrite foldl_insert_lookup, lookup_empty.
  by destruct (last_with key k subnets).
Qed.

Lemma foldl_insert_union (items : list (string * Subnet))
    (m : gmap string Subnet) :
  foldl (fun m item => <[item.1 := item.2]> m) m items
  = list_to_map (reverse items) ∪ m.
Proof.
  revert m. induction items as [|[k v] items IH]; intros m; simpl.
  - by rewrite (left_id_L ∅ (∪)).
  - rewrite IH, reverse_cons, list_to_map_app. simpl.
    by rewrite <- (assoc_L (∪)), <- insert_union_l, (left_id_L ∅ (∪)).
Qed.

Lemma dict_map_to_list (m : gmap string Subnet) : dict (map_to_list m) = m.
Proof.
  unfold dict. rewrite foldl_insert_union, (right_id_L ∅ (∪)).
  rewrite <- (list_to_map_to_list m) at 2.
  apply list_to_map_proper; [|apply reverse_Permutation].
  rewrite fmap_reverse, reverse_Permutation. apply NoDup_fst_map_to_list.
Qed.

(** The lookup is the dictionary by block, over the dictionary by
    identifier. *)
Lemma build_subnet_mapper_union (subnets : list Subnet) :
  build_subnet_mapper subnets
  = dict (List.map (fun subnet => (cidr_block subnet, subnet)) subnets)
    ∪ dict (List.map (fun subnet => (sn_id subnet, subnet)) subnets).
Proof.
  unfold build_subnet_mapper. unfold dict at 1.
  rewrite foldl_app. fold (dict (map_to_list
    (dict (List.map (fun subnet => (sn_id subnet, subnet)) subnets)))).
  rewrite dict_map_to_list, foldl_insert_union.
  f_equal. rewrite <- (dict_map_to_list (dict (List.map _ subnets))) at 2.
  unfold dict at 2. by rewrite foldl_insert_union, (right_id_L ∅ (∪)).
Qed.

Lemma build_subnet_mapper_get (subnets : list Subnet) (k : string) :
  build_subnet_mapper subnets !! k
  = match last_with cidr_block k subnets with
    | Some subnet => Some subnet
    | None => last_with sn_id k subnets
    end.
Proof.
  rewrite build_subnet_mapper_union, lookup_union, !dict_lookup_last.
  by destruct (last_with cidr_block k subnets), (last_with sn_id k subnets).
Qed.

(** X5: what the lookup holds under a key [k]: the last subnet of the
    network whose block is [k], and, when no block is [k], the last subnet
    whose identifier is [k]; nothing when neither exists. *)
Theorem build_subnet_mapper_lookup (subnets : list Subnet) (k : string) :
  build_subnet_mapper subnets !! k
  = match last_with cidr_block k subnets with
    | Some subnet => Some subnet
    | None => last_with sn_id k subnets
    end.
Proof.
  rewrite build_subnet_mapper_union, lookup_union, !dict_lookup_last.
  by destruct (last_with cidr_block k subnets), (last_with sn_id k subnets).
Qed.

Lemma last_with_Some (key : Subnet → string) (k : string)
    (subnets : list Subnet) (subnet : Subnet) :
  last_with key k subnets = Some subnet → subnet ∈ subnets ∧ key subnet = k.
Proof.
  unfold last_with.
  intros Hin%last_Some_elem_of%list_elem_of_In%filter_In.
  destruct Hin as [Hin Hk%bool_decide_eq_true]. by rewrite list_elem_of_In.
Qed.

Lemma last_with_None (key : Subnet → string) (k : string)
    (subnets : list Subnet) :
  last_with key k subnets = None ↔ ∀ subnet, subnet ∈ subnets → key subnet ≠ k.
Proof.
  unfold last_with. rewrite last_None. split.
  - intros Hnil subnet Hin Hk.
    assert (Hf : In subnet (List.filter
                   (fun subnet => bool_decide (key subnet = k)) subnets)).
    { apply filter_In. split; [by apply list_elem_of_In|].
      by apply bool_decide_eq_true. }
    by rewrite Hnil in Hf.
  - intros Hall.
    destruct (List.filter _ subnets) as [|x l] eqn:Hf; [done|].
    assert (Hx : In x (List.filter
                   (fun subnet => bool_decide (key subnet = k)) subnets)).
    { rewrite Hf. by left. }
    apply filter_In in Hx as [Hx Hk%bool_decide_eq_true].
    destruct (Hall x); [by apply list_elem_of_In | done].
Qed.

Lemma last_with_unique (key : Subnet → string) (subnets : list Subnet)
    (subnet : Subnet) :
  NoDup (key <$> subnets) → subnet ∈ subnets →
  last_with key (key subnet) subnets = Some subnet.
Proof.
  intros Hnodup Hin.
  destruct (last_with key (key subnet) subnets) as [s|] eqn:Hlast.
  - apply last_with_Some in Hlast as [Hs Hk]. f_equal.
    by apply (NoDup_fmap_eq key subnets).
  - rewrite last_with_None in Hlast. by destruct (Hlast subnet Hin).
Qed.

(** X6: when the identifiers and the blocks of the subnets of the network
    are all different strings, every subnet is found under its identifier
    and under its block, and a key of the lookup is the identifier or the
    block of the subnet it gives. *)
Theorem build_subnet_mapper_round_trip (subnets : list Subnet) :
  NoDup ((sn_id <$> subnets) ++ (cidr_block <$> subnets)) →
  (∀ subnet, subnet ∈ subnets →
     build_subnet_mapper subnets !! sn_id subnet = Some subnet
     ∧ build_subnet_mapper subnets !! cidr_block subnet = Some subnet)
  ∧ (∀ k subnet, build_subnet_mapper subnets !! k = Some subnet →
       subnet ∈ subnets ∧ (k = sn_id subnet ∨ k = cidr_block subnet)).
Proof.
  intros (Hids & Hdisj & Hblocks)%NoDup_app. split.
  - intros subnet Hin. rewrite !build_subnet_mapper_get. split.
    + assert (last_with cidr_block (sn_id subnet) subnets = None) as ->.
      { apply last_with_None. intros s Hs Heq.
        apply (Hdisj (sn_id subnet)); [by apply list_elem_of_fmap_2|].
        rewrite <- Heq. by apply list_elem_of_fmap_2. }
      by apply last_with_unique.
    + by rewrite last_with_unique.
  - intros k subnet. rewrite build_subnet_mapper_get.
    destruct (last_with cidr_block k subnets) as [s|] eqn:Hblock.
    + intros [= ->]. apply last_with_Some in Hblock as [? <-]. auto.
    + intros [? <-]%last_with_Some. auto.
Qed.

Lemma build_subnet_mapper_round_trip_witness :
  build_subnet_mapper [Net.subnet1] !! "subnet-1" = Some Net.subnet1
  ∧ build_subnet_mapper [Net.subnet1] !! "10.0.1.0/24" = Some Net.subnet1.
Proof.
  destruct (build_subnet_mapper_round_trip [Net.subnet1]) as [Hfound _].
  - apply (bool_decide_unpack _). vm_compute. reflexivity.
  - apply (Hfound Net.subnet1). left.
Defined.

(** ** The plan as a function of the request *)

Lemma filter_all {A : Type} (f : A → bool) (l : list A) :
  (∀ x, x ∈ l → f x = true) → List.filter f l = l.
Proof.
  induction l as [|x l IH]; simpl; [done|]. intros Hall.
  rewrite (Hall x) by left. f_equal. apply IH. intros y Hy. apply Hall. by right.
Qed.

(** On a list of distinct objects, [remove] takes the object out, and
    raises when the object is not there. *)
Lemma list_remove_filter (x : RouteTable) (l : list RouteTable) :
  NoDup (rt_obj <$> l) → rt_obj x ∈ rt_obj <$> l →
  list_remove x l
  = Return (List.filter (fun y => bool_decide (rt_obj y ≠ rt_obj x)) l).
Proof.
  induction l as [|y l IH]; [by intros _ ?%elem_of_nil|].
  rewrite fmap_cons, NoDup_cons, elem_of_cons. intros [Hy Hnodup] Hin. simpl.
  case_bool_decide as Hobj.
  - rewrite bool_decide_eq_false_2 by tauto. f_equal. symmetry.
    apply filter_all. intros z Hz. apply bool_decide_eq_true. intros Heq.
    apply Hy. rewrite Hobj, <- Heq. by apply list_elem_of_fmap_2.
  - rewrite bool_decide_eq_true_2 by done.
    destruct Hin as [Heq | Hin]; [congruence|].
    by rewrite IH.
Qed.

Lemma unmatched_tables_snoc (existing_tables matched : list RouteTable)
    (table : RouteTable) :
  List.filter (fun y => bool_decide (rt_obj y ≠ rt_obj table))
    (unmatched_tables existing_tables matched)
  = unmatched_tables existing_tables (matched ++ [table]).
Proof.
  unfold unmatched_tables.
  induction existing_tables as [|y l IH]; simpl; [done|].
  rewrite <- IH. clear IH.
  assert (Hsnoc : rt_obj y ∈ rt_obj <$> matched ++ [table] ↔
                  rt_obj y ∈ rt_obj <$> matched ∨ rt_obj y = rt_obj table).
  { rewrite fmap_app, elem_of_app. simpl. by rewrite list_elem_of_singleton. }
  destruct (decide (rt_obj y ∈ rt_obj <$> matched)) as [Hin | Hout].
  - rewrite !bool_decide_eq_false_2; [done | tauto | tauto].
  - rewrite (bool_decide_eq_true_2 (rt_obj y ∉ rt_obj <$> matched)) by done.
    simpl. destruct (decide (rt_obj y = rt_obj table)) as [Heq | Hne].
    + rewrite !bool_decide_eq_false_2; [done | tauto | tauto].
    + rewrite !bool_decide_eq_true_2; [done | tauto | done].
Qed.

Lemma unmatched_tables_sublist (existing_tables matched : list RouteTable) :
  unmatched_tables existing_tables matched `sublist_of` existing_tables.
Proof. apply filter_sublist. Qed.

Lemma elem_of_unmatched_tables (existing_tables matched : list RouteTable)
    (table : RouteTable) :
  table ∈ unmatched_tables existing_tables matched ↔
  table ∈ existing_tables ∧ rt_obj table ∉ rt_obj <$> matched.
Proof.
  unfold unmatched_tables.
  by rewrite list_elem_of_In, filter_In, <- list_elem_of_In, bool_decide_eq_true.
Qed.

(** The loop from any plan that keeps in [old_tables] the existing tables
    not yet matched. *)
Lemma plan_loop_outcome existing_tables reqs subnet_mapper gateways gateway p :
  first_gateway gateways = Return gateway →
  NoDup (rt_obj <$> existing_tables) →
  NoDup (rt_obj <$> matched_tables p) →
  (∀ t, t ∈ matched_tables p → t ∈ existing_tables) →
  old_tables p = unmatched_tables existing_tables (matched_tables p) →
  ∀ p', plan_loop existing_tables reqs subnet_mapper gateways p = Return p' ↔
    Forall (fun req => ∃ found, find_matching_table existing_tables req
                                  subnet_mapper gateway = Return found) reqs
    ∧ NoDup (rt_obj <$> matched_tables p
               ++ omap (scan existing_tables subnet_mapper gateway) reqs)
    ∧ p' = {| new_tables :=
                new_tables p
                ++ List.filter (unmatched existing_tables subnet_mapper gateway)
                     reqs;
              matched_tables :=
                matched_tables p
                ++ omap (scan existing_tables subnet_mapper gateway) reqs;
              old_tables :=
                unmatched_tables existing_tables
                  (matched_tables p
                   ++ omap (scan existing_tables subnet_mapper gateway) reqs) |}.
Proof.
  intros Hgw Hnodup. revert p.
  induction reqs as [|req rest IH]; intros p Hmatched Hin Hold p'.
  - simpl. rewrite !app_nil_r, <- Hold. destruct p. simpl.
    split; [by intros [= <-] | by intros (_ & _ & ->)].
  - simpl. unfold plan_step at 1. rewrite Hgw. simpl.
    rewrite Forall_cons.
    destruct (find_matching_table existing_tables req subnet_mapper gateway)
      as [[table|]|e] eqn:Hfind; simpl.
    + assert (scan existing_tables subnet_mapper gateway req = Some table)
        as -> by (unfold scan; by rewrite Hfind).
      assert (unmatched existing_tables subnet_mapper gateway req = false)
        as -> by (unfold unmatched; by rewrite Hfind).
      apply find_matching_table_Some in Hfind as [Htable _].
      destruct (decide (rt_obj table ∈ rt_obj <$> matched_tables p))
        as [Hdup | Hfresh].
      * rewrite list_remove_absent.
        2:{ rewrite Hold. intros (t & Heq & Ht)%list_elem_of_fmap.
            apply elem_of_unmatched_tables in Ht as [_ Ht]. congruence. }
        simpl. split; [done|]. intros (_ & Hnd & _).
        rewrite fmap_app, fmap_cons in Hnd.
        apply NoDup_app in Hnd as (_ & Hdisj & _).
        destruct (Hdisj _ Hdup). left.
      * rewrite list_remove_filter.
        2:{ apply (sublist_NoDup _ (rt_obj <$> existing_tables)); [done|].
            rewrite Hold. apply fmap_sublist, unmatched_tables_sublist. }
        2:{ apply list_elem_of_fmap_2. rewrite Hold.
            by apply elem_of_unmatched_tables. }
        simpl. rewrite Hold, unmatched_tables_snoc.
        rewrite IH; simpl.
        -- rewrite <- !app_assoc. simpl.
           split; [intros (? & ? & ?) | intros ((_ & ?) & ? & ?)];
             split_and!; try done. by eexists.
        -- rewrite fmap_app. apply NoDup_app. split_and!; [done | |].
           ++ intros x Hx ->%list_elem_of_singleton. done.
           ++ apply NoDup_singleton.
        -- intros t [Ht | ->%list_elem_of_singleton]%elem_of_app;
             [by apply Hin | done].
        -- done.
    + assert (scan existing_tables subnet_mapper gateway req = None)
        as -> by (unfold scan; by rewrite Hfind).
      assert (unmatched existing_tables subnet_mapper gateway req = true)
        as -> by (unfold unmatched; by rewrite Hfind).
      rewrite IH; simpl; try done.
      rewrite <- !app_assoc. simpl.
      split; [intros (? & ? & ?) | intros ((_ & ?) & ? & ?)];
        split_and!; try done. by eexists.
    + split; [done|]. by intros (([found ?] & _) & _).
Qed.

Lemma plan_shape (existing_tables : list RouteTable)
    (requested_tables : list DesiredTable) (subnet_mapper : gmap string Subnet)
    (gateways : list Gateway) (gateway : Gateway) (p : Plan) :
  first_gateway gateways = Return gateway →
  NoDup (rt_obj <$> existing_tables) →
  plan existing_tables requested_tables subnet_mapper gateways = Return p ↔
    Forall (fun req => ∃ found, find_matching_table existing_tables req
                                  subnet_mapper gateway = Return found)
      requested_tables
    ∧ NoDup (rt_obj <$> omap (scan existing_tables subnet_mapper gateway)
                          requested_tables)
    ∧ p = {| new_tables :=
               List.filter (unmatched existing_tables subnet_mapper gateway)
                 requested_tables;
             matched_tables :=
               omap (scan existing_tables subnet_mapper gateway)
                 requested_tables;
             old_tables :=
               unmatched_tables existing_tables
                 (omap (scan existing_tables subnet_mapper gateway)
                    requested_tables) |}.
Proof.
  intros Hgw Hnodup. unfold plan.
  rewrite (plan_loop_outcome _ _ _ _ gateway); simpl; try done.
  - apply NoDup_nil_2.
  - by intros t ?%elem_of_nil.
  - unfold unmatched_tables. simpl. symmetry. by apply filter_all.
Qed.

(** X7: the plan as a function of the request, for existing tables that
    are distinct objects.  A plan is returned exactly when the scan of each
    requested table returns and no two requested tables are answered by the
    same live table; the plan then has, in [matched_tables], the answers in
    the order of the request, in [new_tables], the requested tables without
    an answer, and in [old_tables], the existing tables that answer none, in
    their order. *)
Theorem plan_outcome (existing_tables : list RouteTable)
    (requested_tables : list DesiredTable) (subnet_mapper : gmap string Subnet)
    (gateways : list Gateway) (gateway : Gateway) (p : Plan) :
  first_gateway gateways = Return gateway →
  NoDup (rt_obj <$> existing_tables) →
  plan existing_tables requested_tables subnet_mapper gateways = Return p ↔
    Forall (fun req => ∃ found, find_matching_table existing_tables req
                                  subnet_mapper gateway = Return found)
      requested_tables
    ∧ NoDup (rt_obj <$> omap (scan existing_tables subnet_mapper gateway)
                          requested_tables)
    ∧ p = {| new_tables :=
               List.filter (unmatched existing_tables subnet_mapper gateway)
                 requested_tables;
             matched_tables :=
               omap (scan existing_tables subnet_mapper gateway)
                 requested_tables;
             old_tables :=
               unmatched_tables existing_tables
                 (omap (scan existing_tables subnet_mapper gateway)
                    requested_tables) |}.
Proof.
  intros Hgw Hnodup. unfold plan.
  rewrite (plan_loop_outcome _ _ _ _ gateway); simpl; try done.
  - apply NoDup_nil_2.
  - by intros t ?%elem_of_nil.
  - unfold unmatched_tables. simpl. symmetry. by apply filter_all.
Qed.

Lemma plan_outcome_witness :
  plan [Net.bare_table 1 "rtb-1"; Net.public_table 2 "rtb-2" "rtbassoc-2";
        Net.bare_table 3 "rtb-3"]
    [Net.want_typo; Net.want_public] Net.mapper [Net.igw]
  = Return {| new_tables := [Net.want_typo];
              matched_tables := [Net.public_table 2 "rtb-2" "rtbassoc-2"];
              old_tables := [Net.bare_table 1 "rtb-1";
                             Net.bare_table 3 "rtb-3"] |}.
Proof.
  apply (plan_outcome _ _ _ _ Net.igw); [reflexivity | |].
  - apply (bool_decide_unpack _). vm_compute. reflexivity.
  - split_and!.
    + repeat constructor; eexists; vm_compute; reflexivity.
    + apply (bool_decide_unpack _). vm_compute. reflexivity.
    + vm_compute. reflexivity.
Defined.

Lemma filter_Permutation {A : Type} (f : A → bool) (l1 l2 : list A) :
  l1 ≡ₚ l2 → List.filter f l1 ≡ₚ List.filter f l2.
Proof.
  induction 1 as [|x l1 l2 _ IH|x y l|l1 l2 l3 _ IH1 _ IH2]; simpl.
  - done.
  - destruct (f x); [by constructor | done].
  - destruct (f x), (f y); try done. by constructor.
  - by etrans.
Qed.

Lemma filter_partition {A : Type} (f : A → bool) (l : list A) :
  l ≡ₚ List.filter f l ++ List.filter (fun x => negb (f x)) l.
Proof.
  induction l as [|x l IH]; simpl; [done|].
  destruct (f x); simpl.
  - by constructor.
  - by rewrite <- Permutation_middle, <- IH.
Qed.

Lemma unmatched_tables_Permutation (existing_tables m1 m2 : list RouteTable) :
  m1 ≡ₚ m2 →
  unmatched_tables existing_tables m1 = unmatched_tables existing_tables m2.
Proof.
  intros Hperm. unfold unmatched_tables. apply filter_ext. intros t.
  apply bool_decide_ext. by rewrite Hperm.
Qed.

(** X8: for existing tables that are distinct objects, the plan does not
    depend on the order of the requested tables: when a plan is returned
    for a request, one is returned for every reordering of it, with the
    same tables to delete, the same tables to create and the same matched
    tables (up to their order), and the same [changed]. *)
Theorem plan_order_independent (existing_tables : list RouteTable)
    (requested_tables reordered : list DesiredTable)
    (subnet_mapper : gmap string Subnet) (gateways : list Gateway)
    (gateway : Gateway) (p : Plan) :
  first_gateway gateways = Return gateway →
  NoDup (rt_obj <$> existing_tables) →
  requested_tables ≡ₚ reordered →
  plan existing_tables requested_tables subnet_mapper gateways = Return p →
  ∃ p', plan existing_tables reordered subnet_mapper gateways = Return p'
        ∧ old_tables p' = old_tables p
        ∧ matched_tables p' ≡ₚ matched_tables p
        ∧ new_tables p' ≡ₚ new_tables p
        ∧ changed_of p' = changed_of p.
Proof.
  intros Hgw Hnodup Hperm (Hreturns & Hdistinct & ->)%(plan_shape _ _ _ _ gateway);
    try done.
  eexists. split.
  - apply (plan_shape _ _ _ _ gateway); try done.
    split_and!; [by rewrite <- Hperm | by rewrite <- Hperm | done].
  - assert (Hm : omap (scan existing_tables subnet_mapper gateway) reordered
                 ≡ₚ omap (scan existing_tables subnet_mapper gateway)
                      requested_tables) by by rewrite Hperm.
    assert (Hn : List.filter (unmatched existing_tables subnet_mapper gateway)
                   reordered
                 ≡ₚ List.filter (unmatched existing_tables subnet_mapper gateway)
                      requested_tables) by by apply filter_Permutation.
    simpl. split_and!; try done.
    + by apply unmatched_tables_Permutation.
    + unfold changed_of. simpl.
      by rewrite (unmatched_tables_Permutation _ _ _ Hm),
        (Permutation_length Hn).
Qed.

Lemma plan_order_independent_witness :
  ∃ p', plan [Net.bare_table 1 "rtb-1"; Net.public_table 2 "rtb-2" "rtbassoc-2"]
          [Net.want_public; Net.want_typo] Net.mapper [Net.igw] = Return p'
        ∧ old_tables p' = [Net.bare_table 1 "rtb-1"]
        ∧ matched_tables p' ≡ₚ [Net.public_table 2 "rtb-2" "rtbassoc-2"]
        ∧ new_tables p' ≡ₚ [Net.want_typo]
        ∧ changed_of p' = true.
Proof.
  apply (plan_order_independent
           [Net.bare_table 1 "rtb-1"; Net.public_table 2 "rtb-2" "rtbassoc-2"]
           [Net.want_typo; Net.want_public] [Net.want_public; Net.want_typo]
           Net.mapper [Net.igw] Net.igw
           {| new_tables := [Net.want_typo];
              matched_tables := [Net.public_table 2 "rtb-2" "rtbassoc-2"];
              old_tables := [Net.bare_table 1 "rtb-1"] |}).
  - reflexivity.
  - apply (bool_decide_unpack _). vm_compute. reflexivity.
  - apply perm_swap.
  - vm_compute. reflexivity.
Defined.

Lemma scan_or_unmatched existing_tables subnet_mapper gateway reqs :
  Forall (fun req => ∃ found, find_matching_table existing_tables req
                                subnet_mapper gateway = Return found) reqs →
  length (omap (scan existing_tables subnet_mapper gateway) reqs)
  + length (List.filter (unmatched existing_tables subnet_mapper gateway) reqs)
  = length reqs.
Proof.
  induction 1 as [|req rest [found Hreq] _ IH]; simpl; [done|].
  unfold scan at 1, unmatched at 1. rewrite Hreq.
  unfold omap in IH. destruct found; simpl; lia.
Qed.

(** Distinct objects, some of them matched: the unmatched ones and the
    matched ones are all of them, each once. *)
Lemma unmatched_tables_partition (existing_tables matched : list RouteTable) :
  NoDup (rt_obj <$> existing_tables) →
  NoDup (rt_obj <$> matched) →
  (∀ t, t ∈ matched → t ∈ existing_tables) →
  unmatched_tables existing_tables matched ++ matched ≡ₚ existing_tables.
Proof.
  intros Hnodup Hdistinct Hin.
  rewrite (filter_partition
             (fun t => bool_decide (rt_obj t ∉ rt_obj <$> matched))
             existing_tables) at 2.
  unfold unmatched_tables. apply Permutation_app_head.
  symmetry. apply NoDup_Permutation.
  - apply (sublist_NoDup _ existing_tables);
      [by apply (NoDup_fmap_1 rt_obj) | apply filter_sublist].
  - by apply (NoDup_fmap_1 rt_obj).
  - intros t.
    rewrite list_elem_of_In, filter_In, <- list_elem_of_In, negb_true_iff,
      bool_decide_eq_false. split.
    + intros [Ht Hobj]. apply dec_stable in Hobj.
      apply list_elem_of_fmap in Hobj as (t' & Heq & Ht').
      assert (t = t') as ->; [|done].
      apply (NoDup_fmap_eq rt_obj existing_tables); try done. by apply Hin.
    + intros Ht. split; [by apply Hin|].
      intros Hout. apply Hout. by apply list_elem_of_fmap_2.
Qed.

(** X9: for existing tables that are distinct objects, a plan loses no
    table: the tables to delete together with the matched tables are the
    existing tables, each once, and the matched and the new tables are as
    many as the requested ones. *)
Theorem plan_keeps_every_table (existing_tables : list RouteTable)
    (requested_tables : list DesiredTable) (subnet_mapper : gmap string Subnet)
    (gateways : list Gateway) (gateway : Gateway) (p : Plan) :
  first_gateway gateways = Return gateway →
  NoDup (rt_obj <$> existing_tables) →
  plan existing_tables requested_tables subnet_mapper gateways = Return p →
  old_tables p ++ matched_tables p ≡ₚ existing_tables
  ∧ length (matched_tables p) + length (new_tables p)
    = length requested_tables.
Proof.
  intros Hgw Hnodup Hplan.
  destruct (plan_Return_pools _ _ _ _ _ Hplan) as (_ & Hin & _).
  apply (plan_shape _ _ _ _ gateway) in Hplan as (Hreturns & Hdistinct & ->);
    try done.
  simpl in *. split.
  - by apply unmatched_tables_partition.
  - by apply scan_or_unmatched.
Qed.

Lemma plan_keeps_every_table_witness :
  [Net.bare_table 1 "rtb-1"] ++ [Net.public_table 2 "rtb-2" "rtbassoc-2"]
  ≡ₚ [Net.bare_table 1 "rtb-1"; Net.public_table 2 "rtb-2" "rtbassoc-2"].
Proof.
  apply (plan_keeps_every_table
           [Net.bare_table 1 "rtb-1"; Net.public_table 2 "rtb-2" "rtbassoc-2"]
           [Net.want_typo; Net.want_public] Net.mapper [Net.igw] Net.igw
           {| new_tables := [Net.want_typo];
              matched_tables := [Net.public_table 2 "rtb-2" "rtbassoc-2"];
              old_tables := [Net.bare_table 1 "rtb-1"] |}).
  - reflexivity.
  - apply (bool_decide_unpack _). vm_compute. reflexivity.
  - vm_compute. reflexivity.
Defined.

(** X10: for existing tables that are distinct objects, a plan that
    reports no change accounts for everything: the matched tables are all
    the existing tables, the requested tables are as many as the existing
    ones, and each requested table is satisfied by an existing table. *)
Theorem unchanged_plan_is_exact (existing_tables : list RouteTable)
    (requested_tables : list DesiredTable) (subnet_mapper : gmap string Subnet)
    (gateways : list Gateway) (gateway : Gateway) (p : Plan) :
  first_gateway gateways = Return gateway →
  NoDup (rt_obj <$> existing_tables) →
  plan existing_tables requested_tables subnet_mapper gateways = Return p →
  changed_of p = false →
  matched_tables p ≡ₚ existing_tables
  ∧ length requested_tables = length existing_tables
  ∧ Forall (fun req => ∃ table,
              table ∈ existing_tables
              ∧ table_matches table req subnet_mapper gateway = Return true)
      requested_tables.
Proof.
  intros Hgw Hnodup Hplan Hsame.
  destruct (plan_Return_pools _ _ _ _ _ Hplan) as (_ & Hin & _).
  apply (plan_shape _ _ _ _ gateway) in Hplan as (Hreturns & Hdistinct & Hp);
    try done.
  assert (Hperm : old_tables p ++ matched_tables p ≡ₚ existing_tables).
  { rewrite Hp in Hin |- *. simpl in *. by apply unmatched_tables_partition. }
  assert (Hlen : length (matched_tables p) + length (new_tables p)
                 = length requested_tables).
  { rewrite Hp. simpl. by apply scan_or_unmatched. }
  unfold changed_of in Hsame.
  apply orb_false_iff in Hsame as [Hold%bool_decide_eq_false
                                     Hnew%bool_decide_eq_false].
  destruct (old_tables p) as [|? ?] eqn:Ho; [|simpl in Hold; lia].
  destruct (new_tables p) as [|? ?] eqn:Hn; [|simpl in Hnew; lia].
  simpl in *. split_and!; [done | |].
  - rewrite <- Hperm. lia.
  - rewrite Hp in Hn. simpl in Hn.
    rewrite Forall_forall in Hreturns |- *. intros req Hreq.
    destruct (Hreturns req Hreq) as [[table|] Hfind].
    + exists table. by apply find_matching_table_Some.
    + assert (Hreq' : In req (List.filter
                (unmatched existing_tables subnet_mapper gateway)
                requested_tables)).
      { apply filter_In. split; [by apply list_elem_of_In|].
        unfold unmatched. by rewrite Hfind. }
      by rewrite Hn in Hreq'.
Qed.

Lemma unchanged_plan_is_exact_witness :
  length [Net.want_public] = length [Net.public_table 2 "rtb-2" "rtbassoc-2"].
Proof.
  apply (unchanged_plan_is_exact [Net.public_table 2 "rtb-2" "rtbassoc-2"]
           [Net.want_public] Net.mapper [Net.igw] Net.igw
           {| new_tables := [];
              matched_tables := [Net.public_table 2 "rtb-2" "rtbassoc-2"];
              old_tables := [] |}).
  - reflexivity.
  - apply NoDup_singleton.
  - vm_compute. reflexivity.
  - reflexivity.
Defined.

(** ** Deletion and creation, call by call *)

Lemma disassociate_all_closed (table_associations : list RouteAssociation)
    (is_main : bool) :
  disassociate_all table_associations is_main
  = (disassociate_route_table ∘ assoc_id
       <$> List.filter (fun a => negb (assoc_main a)) table_associations,
     is_main
     || negb (bool_decide (List.filter assoc_main table_associations = []))).
Proof.
  revert is_main.
  induction table_associations as [|a l IH]; intros is_main; simpl.
  - by rewrite orb_false_r.
  - destruct (assoc_main a); simpl.
    + rewrite IH. f_equal. by rewrite orb_true_r.
    + by rewrite IH.
Qed.

Lemma delete_tables_cons (table : RouteTable) (rest : list RouteTable) :
  delete_tables (table :: rest) = deletion_of table ++ delete_tables rest.
Proof.
  simpl. rewrite disassociate_all_closed. simpl. unfold deletion_of.
  by rewrite negb_involutive, <- app_assoc.
Qed.

(** X11: the calls of [delete_tables], table by table in the order of the
    list: for each table, one disassociation for each of its associations
    that is not the main one, in their order, then the deletion of the
    table, which is left out when the table has a main association. *)
Theorem delete_tables_calls_in_order (tables : list RouteTable) :
  delete_tables tables = concat (deletion_of <$> tables).
Proof.
  induction tables as [|table rest IH]; [done|].
  by rewrite delete_tables_cons, IH, fmap_cons.
Qed.

(** X12: given a table that has a main association, [delete_tables] does
    not delete it but still removes every other association of it. *)
Theorem delete_tables_strips_main_table (table : RouteTable) :
  (∃ a, a ∈ associations table ∧ assoc_main a = true) →
  delete_tables [table]
  = disassociate_route_table ∘ assoc_id
      <$> List.filter (fun a => negb (assoc_main a)) (associations table).
Proof.
  intros (a & Ha & Hmain). rewrite delete_tables_cons. simpl.
  unfold deletion_of. rewrite bool_decide_eq_false_2, !app_nil_r; [done|].
  intros Hnone.
  assert (Hin : In a (List.filter assoc_main (associations table))).
  { apply filter_In. split; [by apply list_elem_of_In | done]. }
  by rewrite Hnone in Hin.
Qed.

Lemma delete_tables_strips_main_table_witness :
  delete_tables
    [{| rt_obj := 0; rt_id := "rtb-main"; routes := [Net.local_route];
        associations :=
          [{| assoc_id := "rtbassoc-0"; subnet_id := None; assoc_main := true |};
           {| assoc_id := "rtbassoc-5"; subnet_id := Some "subnet-1";
              assoc_main := false |}] |}]
  = [disassociate_route_table "rtbassoc-5"].
Proof.
  apply (delete_tables_strips_main_table
           {| rt_obj := 0; rt_id := "rtb-main"; routes := [Net.local_route];
              associations :=
                [{| assoc_id := "rtbassoc-0"; subnet_id := None;
                    assoc_main := true |};
                 {| assoc_id := "rtbassoc-5"; subnet_id := Some "subnet-1";
                    assoc_main := false |}] |}).
  eexists. split; [left | reflexivity].
Defined.

Lemma create_routes_length new_table_id gateway_ident table_routes :
  length (calls (create_routes new_table_id gateway_ident table_routes))
  = length table_routes.
Proof.
  symmetry. eapply Forall2_length, create_routes_calls.
Qed.

(** X13: when every subnet block of the requested tables is a key of the
    lookup, [create_tables] returns the identifiers of the tables it made,
    one for each requested table in the order of the list, and makes for
    each table one call to create it, one for each of its routes and one for
    each of its subnets. *)
Theorem create_tables_returns_new_tables (created_id : nat → string) (n : nat)
    (vpc_ident gateway_ident : string) (tables : list DesiredTable)
    (subnet_mapper : gmap string Subnet) :
  (∀ t, t ∈ tables → ∀ s, s ∈ req_subnets t → is_Some (subnet_mapper !! s)) →
  result (create_tables created_id n vpc_ident gateway_ident tables
            subnet_mapper)
  = Return (created_id <$> seq n (length tables))
  ∧ length (calls (create_tables created_id n vpc_ident gateway_ident tables
                     subnet_mapper))
    = sum_list ((fun t => 1 + length (req_routes t) + length (req_subnets t))
                <$> tables).
Proof.
  revert n. induction tables as [|t rest IH]; intros n Hall; [done|].
  destruct (associate_subnets_calls (created_id n) (req_subnets t)
              subnet_mapper) as [Hassoc Hcalls]; [apply Hall; left|].
  destruct (create_tables_cons created_id n vpc_ident gateway_ident t rest
              subnet_mapper Hassoc) as [-> ->].
  destruct (IH (S n)) as [-> Hlen]; [intros t' Ht'; apply Hall; by right|].
  split; [done|].
  apply Forall2_length in Hcalls.
  rewrite fmap_cons. change (sum_list (?x :: ?l)) with (x + sum_list l).
  rewrite <- Hlen. cbn [length].
  rewrite !length_app, create_routes_length, <- Hcalls. lia.
Qed.

Lemma create_tables_returns_new_tables_witness :
  result (create_tables Net.ids 0 "vpc-1" "igw-1"
            [Net.want_bare; Net.want_public] Net.mapper)
  = Return ["rtb-new0"; "rtb-new1"].
Proof.
  apply (create_tables_returns_new_tables Net.ids 0 "vpc-1" "igw-1"
           [Net.want_bare; Net.want_public] Net.mapper).
  intros t Ht s Hs.
  apply elem_of_cons in Ht as [-> | ->%list_elem_of_singleton];
    [by apply elem_of_nil in Hs|].
  apply list_elem_of_singleton in Hs as ->.
  vm_compute. eexists. reflexivity.
Defined.

Lemma associate_subnets_stops new_table_id resolved s others subnet_mapper :
  (∀ s', s' ∈ resolved → is_Some (subnet_mapper !! s')) →
  subnet_mapper !! s = None →
  associate_subnets new_table_id (resolved ++ s :: others) subnet_mapper
  = MkExec (calls (associate_subnets new_table_id resolved subnet_mapper))
      (Raise KeyError).
Proof.
  intros Hall Hs. induction resolved as [|s' rest IH]; simpl.
  - unfold mbind, exec_bind. simpl. by rewrite Hs.
  - destruct (Hall s' (list_elem_of_here _ _)) as [subnet Hs'].
    unfold mbind, exec_bind. simpl. rewrite Hs'. simpl.
    rewrite IH; [done|]. intros s'' Hin. apply Hall. by right.
Qed.

(** X14: creation is not undone.  When the tables before one resolve and
    that one names, after blocks that resolve, a block that is not a key of
    the lookup, [create_tables] raises [KeyError] having made all the calls
    for the tables before, created the table and its routes and associated
    the blocks before the missing one; nothing is called for the blocks and
    the tables after it. *)
Theorem create_tables_stops_at_missing_block (created_id : nat → string)
    (n : nat) (vpc_ident gateway_ident : string)
    (before : list DesiredTable) (table : DesiredTable)
    (after : list DesiredTable) (subnet_mapper : gmap string Subnet)
    (resolved : list string) (s : string) (others : list string) :
  (∀ t, t ∈ before → ∀ s', s' ∈ req_subnets t → is_Some (subnet_mapper !! s')) →
  req_subnets table = resolved ++ s :: others →
  (∀ s', s' ∈ resolved → is_Some (subnet_mapper !! s')) →
  subnet_mapper !! s = None →
  let new_table_id := created_id (n + length before) in
  create_tables created_id n vpc_ident gateway_ident (before ++ table :: after)
    subnet_mapper
  = MkExec
      (calls (create_tables created_id n vpc_ident gateway_ident before
                subnet_mapper)
       ++ create_route_table vpc_ident
          :: calls (create_routes new_table_id gateway_ident (req_routes table))
          ++ calls (associate_subnets new_table_id resolved subnet_mapper))
      (Raise KeyError).
Proof.
  intros Hbefore Hsubnets Hresolved Hs new_table_id.
  assert (Hhere : ∀ m,
    create_tables created_id m vpc_ident gateway_ident (table :: after)
      subnet_mapper
    = MkExec
        (create_route_table vpc_ident
         :: calls (create_routes (created_id m) gateway_ident (req_routes table))
         ++ calls (associate_subnets (created_id m) resolved subnet_mapper))
        (Raise KeyError)).
  { intros m. simpl. unfold mbind, exec_bind. simpl.
    destruct (create_routes_spec (created_id m) gateway_ident (req_routes table))
      as [-> _]. simpl.
    by rewrite Hsubnets, associate_subnets_stops. }
  revert n new_table_id.
  induction before as [|t before IH]; intros n new_table_id.
  - subst new_table_id. simpl length. rewrite Nat.add_0_r. apply Hhere.
  - destruct (associate_subnets_calls (created_id n) (req_subnets t)
                subnet_mapper) as [Hassoc _]; [apply Hbefore; left|].
    change ((t :: before) ++ table :: after)
      with (t :: (before ++ table :: after)).
    destruct (create_tables_cons created_id n vpc_ident gateway_ident t
                before subnet_mapper Hassoc) as [Hcalls _].
    rewrite Hcalls. clear Hcalls.
    specialize (IH (fun t' Ht' => Hbefore t' (list_elem_of_further _ _ _ Ht'))
                  (S n)).
    simpl in IH. subst new_table_id. simpl length.
    replace (n + S (length before)) with (S n + length before) by lia.
    simpl create_tables at 1. unfold mbind at 1 2 3, exec_bind. simpl.
    destruct (create_routes_spec (created_id n) gateway_ident (req_routes t))
      as [-> _]. simpl. rewrite Hassoc. simpl.
    rewrite IH. simpl. by rewrite <- !app_assoc.
Qed.

Lemma create_tables_stops_at_missing_block_witness :
  create_tables Net.ids 0 "vpc-1" "igw-1"
    ([Net.want_bare]
     ++ {| req_routes := [{| dest := "0.0.0.0/0"; gw := "igw" |}];
           req_subnets := ["10.0.1.0/24"; "10.0.9.0/24"; "10.0.1.0/24"] |}
        :: [Net.want_bare])
    Net.mapper
  = MkExec
      (calls (create_tables Net.ids 0 "vpc-1" "igw-1" [Net.want_bare]
                Net.mapper)
       ++ create_route_table "vpc-1"
          :: calls (create_routes "rtb-new1" "igw-1"
                      [{| dest := "0.0.0.0/0"; gw := "igw" |}])
          ++ calls (associate_subnets "rtb-new1" ["10.0.1.0/24"] Net.mapper))
      (Raise KeyError).
Proof.
  apply (create_tables_stops_at_missing_block Net.ids 0 "vpc-1" "igw-1"
           [Net.want_bare]
           {| req_routes := [{| dest := "0.0.0.0/0"; gw := "igw" |}];
              req_subnets := ["10.0.1.0/24"; "10.0.9.0/24"; "10.0.1.0/24"] |}
           [Net.want_bare] Net.mapper ["10.0.1.0/24"] "10.0.9.0/24"
           ["10.0.1.0/24"]).
  - intros t ->%list_elem_of_singleton s' Hs'. by apply elem_of_nil in Hs'.
  - reflexivity.
  - intros s' ->%list_elem_of_singleton. vm_compute. eexists. reflexivity.
  - vm_compute. reflexivity.
Defined.

(** ** Runs, case by case *)

(** [main], outcome by outcome. *)
Lemma main_unfold (created_id : nat → string) (params : Params)
    (answers : Answers) :
  let gateways := internet_gateways answers in
  let existing_tables := without_main (all_route_tables answers) in
  let subnet_mapper := build_subnet_mapper (all_subnets answers) in
  main created_id params answers
  = if bool_decide (1 < length gateways) then MkExec [] (Raise NameError)
    else match p_route_tables params with
    | None => MkExec [] (Raise TypeError)
    | Some tables =>
        match plan existing_tables tables subnet_mapper gateways with
        | Raise e => MkExec [] (Raise e)
        | Return p =>
            match first_gateway gateways with
            | Raise e => MkExec (delete_tables (old_tables p)) (Raise e)
            | Return gateway =>
                let created :=
                  create_tables created_id 0 (vpc_ident answers)
                    (igw_id gateway) (new_tables p) subnet_mapper in
                MkExec (delete_tables (old_tables p) ++ calls created)
                  match result created with
                  | Return _ =>
                      Return {| changed := changed_of p;
                                route_tables :=
                                  format_response (final_route_tables answers) |}
                  | Raise e => Raise e
                  end
            end
        end
    end.
Proof.
  intros gateways existing_tables subnet_mapper. unfold main.
  fold gateways existing_tables subnet_mapper.
  case_bool_decide; [done|].
  destruct (p_route_tables params) as [tables|]; simpl; [|done].
  unfold mbind, exec_bind. simpl.
  destruct (plan existing_tables tables subnet_mapper gateways) as [p|e];
    simpl; [|done].
  destruct (first_gateway gateways) as [gateway|e]; simpl;
    [|by rewrite app_nil_r].
  destruct (result (create_tables _ _ _ _ _ _)); simpl;
    by rewrite ?app_nil_r.
Qed.

(** X15: the failures of a run that come before any call.  More than one
    internet gateway ends the run in [NameError] (line 229 builds its
    message from the undefined name [vpc]); with at most one gateway, a run
    without [route_tables] ends in [TypeError] (line 247 loops over [None]);
    and whatever the planning raises ends the run.  In all three no call
    has been made. *)
Theorem main_fails_before_any_call (created_id : nat → string)
    (params : Params) (answers : Answers) :
  (1 < length (internet_gateways answers) →
     main created_id params answers = MkExec [] (Raise NameError))
  ∧ ((length (internet_gateways answers) ≤ 1)%nat →
     p_route_tables params = None →
     main created_id params answers = MkExec [] (Raise TypeError))
  ∧ (∀ tables e,
       (length (internet_gateways answers) ≤ 1)%nat →
       p_route_tables params = Some tables →
       plan (without_main (all_route_tables answers)) tables
         (build_subnet_mapper (all_subnets answers))
         (internet_gateways answers) = Raise e →
       main created_id params answers = MkExec [] (Raise e)).
Proof.
  rewrite main_unfold. simpl. split_and!.
  - intros Hmany. by rewrite bool_decide_eq_true_2.
  - intros Hfew ->. rewrite bool_decide_eq_false_2 by lia. done.
  - intros tables e Hfew -> ->. rewrite bool_decide_eq_false_2 by lia. done.
Qed.

Lemma main_fails_before_any_call_witness :
  main Net.ids {| p_route_tables := Some [Net.want_public]; p_state := present |}
    {| vpc_ident := "vpc-1";
       internet_gateways := [Net.igw; {| igw_id := "igw-2" |}];
       all_route_tables := [Net.main_table]; all_subnets := [Net.subnet1];
       final_route_tables := [Net.main_table] |}
  = MkExec [] (Raise NameError)
  ∧ main Net.ids {| p_route_tables := None; p_state := present |}
      (Net.answers [] []) = MkExec [] (Raise TypeError).
Proof.
  split.
  - apply (main_fails_before_any_call Net.ids
             {| p_route_tables := Some [Net.want_public]; p_state := present |}).
    simpl. lia.
  - apply (main_fails_before_any_call Net.ids
             {| p_route_tables := None; p_state := present |}
             (Net.answers [] [])); [simpl; lia | reflexivity].
Defined.

(** X16: a VPC without an internet gateway.  A run with an empty request
    deletes every table that has no main association and then ends in
    [IndexError] (line 259 takes [gateways[0]]); a run with a requested
    table ends in [IndexError] before any call (line 248), whether or not a
    requested route goes through the gateway. *)
Theorem main_without_gateway (created_id : nat → string) (params : Params)
    (answers : Answers) :
  internet_gateways answers = [] →
  (p_route_tables params = Some [] →
     main created_id params answers
     = MkExec (delete_tables (without_main (all_route_tables answers)))
         (Raise IndexError))
  ∧ (∀ table tables,
       p_route_tables params = Some (table :: tables) →
       main created_id params answers = MkExec [] (Raise IndexError)).
Proof.
  intros Hnone. rewrite main_unfold. simpl. rewrite Hnone. simpl. split.
  - by intros ->.
  - by intros table tables ->.
Qed.

Lemma main_without_gateway_witness :
  main Net.ids {| p_route_tables := Some []; p_state := present |}
    {| vpc_ident := "vpc-1"; internet_gateways := [];
       all_route_tables :=
         [Net.main_table; Net.public_table 1 "rtb-1" "rtbassoc-1"];
       all_subnets := [Net.subnet1];
       final_route_tables := [Net.main_table] |}
  = MkExec [disassociate_route_table "rtbassoc-1"; delete_route_table "rtb-1"]
      (Raise IndexError).
Proof.
  apply (main_without_gateway Net.ids
           {| p_route_tables := Some []; p_state := present |}
           {| vpc_ident := "vpc-1"; internet_gateways := [];
              all_route_tables :=
                [Net.main_table; Net.public_table 1 "rtb-1" "rtbassoc-1"];
              all_subnets := [Net.subnet1];
              final_route_tables := [Net.main_table] |});
    reflexivity.
Defined.

Lemma delete_tables_delete (tables : list RouteTable) :
  Forall is_delete (delete_tables tables).
Proof.
  apply Forall_forall. intros c Hc.
  by apply delete_tables_calls in Hc
    as [(t & a & _ & _ & _ & ->) | (t & _ & _ & ->)].
Qed.

(** X17: in every run the deletions come first: the calls are
    disassociations and deletions of tables, followed by creations of
    tables, of routes and of associations, and no deletion follows a
    creation. *)
Theorem main_deletes_before_creating (created_id : nat → string)
    (params : Params) (answers : Answers) :
  ∃ deletions creations,
    calls (main created_id params answers) = deletions ++ creations
    ∧ Forall is_delete deletions
    ∧ Forall is_create creations.
Proof.
  destruct (main_calls created_id params answers)
    as [-> | (tables & p & cs & _ & _ & -> & Hcreate)].
  - by exists [], [].
  - exists (delete_tables (old_tables p)), cs.
    split_and!; [done | apply delete_tables_delete | done].
Qed.

Lemma create_tables_nonempty created_id n vpc_ident gateway_ident table rest
    subnet_mapper :
  calls (create_tables created_id n vpc_ident gateway_ident (table :: rest)
           subnet_mapper) ≠ [].
Proof. simpl. unfold mbind, exec_bind. simpl. done. Qed.

Lemma delete_tables_nonempty (table : RouteTable) (rest : list RouteTable) :
  (∀ a, a ∈ associations table → assoc_main a = false) →
  delete_tables (table :: rest) ≠ [].
Proof.
  intros Hnone%no_main_filter. rewrite delete_tables_cons.
  unfold deletion_of. rewrite bool_decide_eq_true_2.
  - intros Hnil%app_eq_nil. destruct Hnil as [Hnil%app_eq_nil _].
    by destruct Hnil.
  - by destruct (List.filter assoc_main (associations table)).
Qed.

(** X18: the [changed] of a run that returns tells whether the run made a
    call: it is [false] exactly when nothing was deleted, disassociated,
    created or associated. *)
Theorem changed_iff_calls (created_id : nat → string) (params : Params)
    (answers : Answers) (response : Response) :
  result (main created_id params answers) = Return response →
  (changed response = false ↔ calls (main created_id params answers) = []).
Proof.
  rewrite main_unfold. simpl. case_bool_decide; [done|].
  destruct (p_route_tables params) as [tables|]; [|done].
  destruct (plan _ _ _ _) as [p|e] eqn:Hplan; [|done].
  destruct (first_gateway _) as [gateway|e]; [|done]. simpl.
  destruct (result (create_tables _ _ _ _ _ _)) eqn:Hcreate; [|done].
  intros [= <-]. simpl. unfold changed_of.
  apply plan_Return_pools in Hplan as (Hsub & _ & _).
  destruct (old_tables p) as [|t old] eqn:Hold; simpl.
  - destruct (new_tables p) as [|t new]; simpl; [done|].
    split; [done|]. intros Hnil.
    by apply create_tables_nonempty in Hnil.
  - split; [done|]. intros [Hnil _]%app_eq_nil.
    apply delete_tables_nonempty in Hnil; [done|].
    assert (Ht : t ∈ without_main (all_route_tables answers)).
    { eapply elem_of_sublist; [|done]. left. }
    by apply without_main_spec in Ht as [_ ?].
Qed.

Lemma changed_iff_calls_witness :
  changed {| changed := false;
             route_tables := format_response [Net.main_table] |} = false ↔
  calls (main Net.ids
           {| p_route_tables := Some [Net.want_public]; p_state := present |}
           (Net.answers [Net.public_table 1 "rtb-new0" "rtbassoc-1"] []))
  = [].
Proof.
  apply (changed_iff_calls Net.ids
           {| p_route_tables := Some [Net.want_public]; p_state := present |}
           (Net.answers [Net.public_table 1 "rtb-new0" "rtbassoc-1"] [])).
  vm_compute. reflexivity.
Defined.

(** ** Routes, and subnets named by identifier *)

(** X19: [find_matching_route] returns the first live route that agrees
    with the requested route, and [None] exactly when no live route does;
    the subnet lookup it is given plays no part. *)
Theorem find_matching_route_first (existing_routes : list Route)
    (requested_route : DesiredRoute) (subnet_mapper : gmap string Subnet)
    (gateway : Gateway) :
  (∀ route,
     find_matching_route existing_routes requested_route subnet_mapper gateway
       = Some route ↔
     ∃ before after,
       existing_routes = before ++ route :: after
       ∧ Forall (fun r => ¬ agrees r requested_route gateway) before
       ∧ agrees route requested_route gateway)
  ∧ (find_matching_route existing_routes requested_route subnet_mapper gateway
       = None ↔
     Forall (fun r => ¬ agrees r requested_route gateway) existing_routes)
  ∧ (∀ other_mapper,
       find_matching_route existing_routes requested_route other_mapper gateway
       = find_matching_route existing_routes requested_route subnet_mapper
           gateway).
Proof.
  assert (Hskip : ∀ r, route_skipped r requested_route gateway = true ↔
                       ¬ agrees r requested_route gateway).
  { intros r. unfold agrees. rewrite <- route_skipped_false.
    by destruct (route_skipped r requested_route gateway). }
  split_and!; [| |intros other_mapper; by rewrite !find_matching_route_find].
  - induction existing_routes as [|x l IH]; intros route; simpl.
    { split; [done|]. intros ([|??] & ? & ? & _); done. }
    destruct (route_skipped x requested_route gateway) eqn:Hx.
    + rewrite IH. apply Hskip in Hx. split.
      * intros (before & after & -> & Hbefore & Hroute).
        exists (x :: before), after. split_and!; try done. by constructor.
      * intros ([|y before] & after & Heq & Hbefore & Hroute); simpl in Heq.
        -- injection Heq as <- _. done.
        -- injection Heq as <- ->.
           apply Forall_cons in Hbefore as [_ Hbefore].
           by exists before, after.
    + assert (Hagrees : agrees x requested_route gateway).
      { unfold agrees. by rewrite <- route_skipped_false. }
      split.
      * intros [= <-]. by exists [], l.
      * intros ([|y before] & after & Heq & Hbefore & Hroute); simpl in Heq.
        -- by injection Heq as -> _.
        -- injection Heq as <- _.
           by apply Forall_cons in Hbefore as [? _].
  - rewrite find_matching_route_None, Forall_forall.
    split; intros Hall r Hr; apply Hskip; by apply Hall.
Qed.

(** No live table matches a requested table that names a string which is
    the block of no subnet. *)
Lemma find_matching_table_no_block (subnets : list Subnet)
    (existing_tables : list RouteTable) (requested_table : DesiredTable)
    (gateway : Gateway) (s : string) :
  s ∈ req_subnets requested_table →
  (∀ subnet, subnet ∈ subnets → cidr_block subnet ≠ s) →
  (∀ table a, table ∈ existing_tables → a ∈ associations table →
     ∃ subnet, subnet ∈ subnets ∧ subnet_id a = Some (sn_id subnet)) →
  find_matching_table existing_tables requested_table
    (build_subnet_mapper subnets) gateway = Return None.
Proof.
  intros Hs Habsent Hlive.
  induction existing_tables as [|table rest IH]; simpl; [done|].
  assert (Hfalse : table_matches table requested_table
                     (build_subnet_mapper subnets) gateway = Return false).
  { unfold table_matches.
    case_bool_decide; [done|].
    destruct (routes_matched _ _ _ _); simpl; [|done].
    case_bool_decide; [done|].
    apply (subnets_matched_absent _ _ _ s); [done|].
    intros a Ha.
    destruct (Hlive table a (list_elem_of_here _ _) Ha)
      as (subnet & Hsubnet & Hid).
    destruct (build_subnet_mapper_id subnets subnet Hsubnet) as [v Hv].
    exists v. rewrite Hid. simpl. rewrite Hv. split; [done|].
    apply Habsent. by eapply build_subnet_mapper_value. }
  rewrite Hfalse. simpl. apply IH.
  intros t a Ht. apply Hlive. by right.
Qed.

Lemma associate_subnets_by_identifier (new_table_id : string)
    (table_subnets : list string) (subnet_mapper : gmap string Subnet) :
  (∀ s, s ∈ table_subnets →
     ∃ subnet, subnet_mapper !! s = Some subnet ∧ sn_id subnet = s) →
  associate_subnets new_table_id table_subnets subnet_mapper
  = MkExec (associate_route_table new_table_id <$> table_subnets) (Return tt).
Proof.
  induction table_subnets as [|s rest IH]; intros Hall; simpl; [done|].
  destruct (Hall s (list_elem_of_here _ _)) as (subnet & Hs & Hid).
  unfold mbind, exec_bind. simpl. rewrite Hs. simpl.
  rewrite IH; [|intros s' Hs'; apply Hall; by right].
  simpl. by rewrite Hid.
Qed.

(** X20: a subnet named by its identifier.  The lookup knows identifiers,
    so [create_tables] associates such a subnet; the matching compares the
    requested string with blocks only, so a requested table that names its
    subnets by identifiers (which are no blocks of the network) is matched
    by no live table.  Every plan puts it in [new_tables] and reports a
    change; and [create_tables] creates it with its routes and one
    [associate_route_table] for each identifier, in their order, with that
    identifier as the subnet, before it goes on to the next table. *)
Theorem subnet_by_identifier_never_matches (subnets : list Subnet)
    (existing_tables : list RouteTable) (requested_table : DesiredTable)
    (gateway : Gateway) (created_id : nat → string) (n : nat)
    (vpc_ident gateway_ident : string) (rest : list DesiredTable) :
  req_subnets requested_table ≠ [] →
  (∀ s, s ∈ req_subnets requested_table →
     (∃ subnet, subnet ∈ subnets ∧ sn_id subnet = s)
     ∧ ∀ subnet, subnet ∈ subnets → cidr_block subnet ≠ s) →
  (∀ table a, table ∈ existing_tables → a ∈ associations table →
     ∃ subnet, subnet ∈ subnets ∧ subnet_id a = Some (sn_id subnet)) →
  let subnet_mapper := build_subnet_mapper subnets in
  find_matching_table existing_tables requested_table subnet_mapper gateway
    = Return None
  ∧ (∀ gateways before after p,
       plan existing_tables (before ++ requested_table :: after) subnet_mapper
         (gateway :: gateways) = Return p →
       requested_table ∈ new_tables p ∧ changed_of p = true)
  ∧ calls (create_tables created_id n vpc_ident gateway_ident
             (requested_table :: rest) subnet_mapper)
    = create_route_table vpc_ident
      :: calls (create_routes (created_id n) gateway_ident
                  (req_routes requested_table))
      ++ (associate_route_table (created_id n) <$> req_subnets requested_table)
      ++ calls (create_tables created_id (S n) vpc_ident gateway_ident rest
                  subnet_mapper).
Proof.
  intros Hsome Hids Hlive subnet_mapper.
  assert (Hfind : find_matching_table existing_tables requested_table
                    subnet_mapper gateway = Return None).
  { destruct (req_subnets requested_table) as [|s l] eqn:Hsubnets; [done|].
    apply (find_matching_table_no_block _ _ _ _ s); [| |done].
    - rewrite Hsubnets. left.
    - apply Hids. left. }
  split_and!; [done | |].
  - intros gateways before after p
      (_ & _ & Hnew)%(plan_loop_Return _ _ _ _ gateway); [|done].
    simpl in Hnew.
    assert (Hin : requested_table ∈ new_tables p).
    { rewrite Hnew, list_elem_of_In, filter_In, <- list_elem_of_In.
      split; [apply elem_of_app; right; left|].
      unfold unmatched. by rewrite Hfind. }
    split; [done|]. unfold changed_of.
    destruct (new_tables p); [by apply elem_of_nil in Hin|].
    apply orb_true_iff. right. apply bool_decide_eq_true. simpl. lia.
  - assert (Hassoc :
      associate_subnets (created_id n) (req_subnets requested_table)
        subnet_mapper
      = MkExec (associate_route_table (created_id n)
                  <$> req_subnets requested_table) (Return tt)).
    { apply associate_subnets_by_identifier. intros s Hs.
      destruct (Hids s Hs) as [(subnet & Hsubnet & Hid) Hblocks].
      unfold subnet_mapper. rewrite build_subnet_mapper_get.
      assert (last_with cidr_block s subnets = None) as ->
        by by apply last_with_None.
      destruct (last_with sn_id s subnets) as [found|] eqn:Hlast.
      - exists found. split; [done|]. by apply last_with_Some in Hlast as [_ ?].
      - rewrite last_with_None in Hlast. by destruct (Hlast subnet Hsubnet). }
    destruct (create_tables_cons created_id n vpc_ident gateway_ident
                requested_table rest subnet_mapper) as [-> _];
      by rewrite Hassoc.
Qed.

Lemma subnet_by_identifier_never_matches_witness :
  find_matching_table [Net.public_table 1 "rtb-1" "rtbassoc-1"]
    {| req_routes := [{| dest := "0.0.0.0/0"; gw := "igw" |}];
       req_subnets := ["subnet-1"] |}
    (build_subnet_mapper [Net.subnet1]) Net.igw
  = Return None
  ∧ calls (create_tables Net.ids 0 "vpc-1" "igw-1"
             [{| req_routes := [{| dest := "0.0.0.0/0"; gw := "igw" |}];
                 req_subnets := ["subnet-1"] |}]
             (build_subnet_mapper [Net.subnet1]))
    = [create_route_table "vpc-1";
       create_route "rtb-new0" "0.0.0.0/0" (Some "igw-1") None;
       associate_route_table "rtb-new0" "subnet-1"].
Proof.
  destruct (subnet_by_identifier_never_matches [Net.subnet1]
              [Net.public_table 1 "rtb-1" "rtbassoc-1"]
              {| req_routes := [{| dest := "0.0.0.0/0"; gw := "igw" |}];
                 req_subnets := ["subnet-1"] |}
              Net.igw Net.ids 0 "vpc-1" "igw-1" [])
    as (Hfind & _ & Hcalls).
  - discriminate.
  - intros s ->%list_elem_of_singleton. split.
    + exists Net.subnet1. split; [left | reflexivity].
    + intros subnet ->%list_elem_of_singleton. vm_compute. discriminate.
  - intros table a ->%list_elem_of_singleton ->%list_elem_of_singleton.
    exists Net.subnet1. split; [left | reflexivity].
  - split; [exact Hfind|]. rewrite Hcalls. reflexivity.
Defined.

(** ** Creation, whether or not the blocks are in the lookup *)

Lemma exec_eq {A : Type} (e1 e2 : Exec A) :
  calls e1 = calls e2 → result e1 = result e2 → e1 = e2.
Proof. destruct e1, e2. simpl. by intros -> ->. Qed.

(** The blocks of a list are all keys of the lookup, or there is a first one
    that is not. *)
Lemma first_missing_block (subnet_mapper : gmap string Subnet)
    (table_subnets : list string) :
  (∀ s, s ∈ table_subnets → is_Some (subnet_mapper !! s))
  ∨ ∃ resolved s others,
      table_subnets = resolved ++ s :: others
      ∧ (∀ s', s' ∈ resolved → is_Some (subnet_mapper !! s'))
      ∧ subnet_mapper !! s = None.
Proof.
  induction table_subnets as [|x l IH].
  - left. by intros s ?%elem_of_nil.
  - destruct (subnet_mapper !! x) as [subnet|] eqn:Hx.
    + destruct IH as [Hall | (resolved & s & others & -> & Hres & Hs)].
      * left. intros s [-> | Hin]%elem_of_cons; [by eexists | by apply Hall].
      * right. exists (x :: resolved), s, others. split_and!; [done | | done].
        intros s' [-> | Hin]%elem_of_cons; [by eexists | by apply Hres].
    + right. exists [], x, l. split_and!; [done | | done].
      by intros s' ?%elem_of_nil.
Qed.

(** A table that names a block out of the lookup, at the head of the list:
    the table and its routes are created, the blocks before the missing one
    are associated, and [KeyError] is raised. *)
Lemma create_tables_cons_missing_block created_id n vpc_ident gateway_ident
    table after subnet_mapper resolved s others :
  req_subnets table = resolved ++ s :: others →
  (∀ s', s' ∈ resolved → is_Some (subnet_mapper !! s')) →
  subnet_mapper !! s = None →
  create_tables created_id n vpc_ident gateway_ident (table :: after)
    subnet_mapper
  = MkExec
      (create_route_table vpc_ident
       :: calls (create_routes (created_id n) gateway_ident (req_routes table))
       ++ calls (associate_subnets (created_id n) resolved subnet_mapper))
      (Raise KeyError).
Proof.
  intros Hsubnets Hresolved Hs. simpl. unfold mbind, exec_bind. simpl.
  destruct (create_routes_spec (created_id n) gateway_ident (req_routes table))
    as [-> _]. simpl.
  by rewrite Hsubnets, associate_subnets_stops.
Qed.

(** What is raised after tables whose blocks are keys of the lookup is
    raised by the whole list, after the calls for those tables. *)
Lemma create_tables_app_Raise created_id n vpc_ident gateway_ident before
    tables subnet_mapper e :
  (∀ t, t ∈ before → ∀ s, s ∈ req_subnets t → is_Some (subnet_mapper !! s)) →
  result (create_tables created_id (n + length before) vpc_ident gateway_ident
            tables subnet_mapper) = Raise e →
  create_tables created_id n vpc_ident gateway_ident (before ++ tables)
    subnet_mapper
  = MkExec
      (calls (create_tables created_id n vpc_ident gateway_ident before
                subnet_mapper)
       ++ calls (create_tables created_id (n + length before) vpc_ident
                   gateway_ident tables subnet_mapper))
      (Raise e).
Proof.
  intros Hbefore Hraise. apply exec_eq; simpl.
  - by apply create_tables_app.
  - revert n Hraise. induction before as [|t before IH]; intros n Hraise.
    + simpl in *. by rewrite Nat.add_0_r in Hraise.
    + destruct (associate_subnets_calls (created_id n) (req_subnets t)
                  subnet_mapper) as [Hassoc _]; [apply Hbefore; left|].
      change ((t :: before) ++ tables) with (t :: (before ++ tables)).
      destruct (create_tables_cons created_id n vpc_ident gateway_ident t
                  (before ++ tables) subnet_mapper Hassoc) as [_ ->].
      rewrite IH; [done | |].
      * intros t' Ht'. apply Hbefore. by right.
      * simpl in Hraise. by rewrite Nat.add_succ_r in Hraise.
Qed.

(** C6, as the code has it: for every table of the list that
    [create_tables] reaches (the subnet blocks of the tables before it being
    keys of the lookup), the calls are, after those for the tables before
    it and in this order: the creation of a table; one [create_route] for
    each declared route, with the gateway identifier and no instance when
    the specifier is [igw], with the specifier as the instance and no
    gateway otherwise; and one [associate_route_table] for each declared
    subnet block, with the identifier of the subnet that the lookup gives
    for the block, up to the first block that is not a key of the lookup.
    When every block is a key, all blocks are associated and the calls for
    the tables after it follow; otherwise [KeyError] is raised at the
    missing block and nothing is called for the blocks and the tables after
    it. *)
Theorem create_tables_calls_reached (created_id : nat → string) (n : nat)
    (vpc_ident gateway_ident : string) (before : list DesiredTable)
    (table : DesiredTable) (after : list DesiredTable)
    (subnet_mapper : gmap string Subnet) :
  (∀ t, t ∈ before → ∀ s, s ∈ req_subnets t → is_Some (subnet_mapper !! s)) →
  let new_table_id := created_id (n + length before) in
  ∃ route_calls subnet_calls resolved,
    Forall2 (creates_route new_table_id gateway_ident) (req_routes table)
      route_calls
    ∧ Forall2 (associates_subnet new_table_id subnet_mapper) resolved
        subnet_calls
    ∧ ((resolved = req_subnets table
        ∧ created_as_declared created_id n vpc_ident gateway_ident before
            table after subnet_mapper
        ∧ calls (create_tables created_id n vpc_ident gateway_ident
                   (before ++ table :: after) subnet_mapper)
          = calls (create_tables created_id n vpc_ident gateway_ident before
                     subnet_mapper)
            ++ create_route_table vpc_ident :: route_calls ++ subnet_calls
            ++ calls (create_tables created_id (S (n + length before))
                        vpc_ident gateway_ident after subnet_mapper))
       ∨ (∃ s others,
            req_subnets table = resolved ++ s :: others
            ∧ subnet_mapper !! s = None
            ∧ create_tables created_id n vpc_ident gateway_ident
                (before ++ table :: after) subnet_mapper
              = MkExec
                  (calls (create_tables created_id n vpc_ident gateway_ident
                            before subnet_mapper)
                   ++ create_route_table vpc_ident
                      :: route_calls ++ subnet_calls)
                  (Raise KeyError))).
Proof.
  intros Hbefore new_table_id.
  destruct (first_missing_block subnet_mapper (req_subnets table))
    as [Hall | (resolved & s & others & Hsubnets & Hresolved & Hs)].
  - destruct (create_tables_calls_resolved created_id n vpc_ident gateway_ident
                before table after subnet_mapper)
      as (route_calls & subnet_calls & Hcalls & Hroutes & Hassoc).
    { intros t [Ht | ->%list_elem_of_singleton]%elem_of_app;
        [by apply Hbefore | done]. }
    exists route_calls, subnet_calls, (req_subnets table).
    split_and!; [done | done |]. left. split_and!; [done | | done].
    by exists route_calls, subnet_calls.
  - destruct (associate_subnets_calls new_table_id resolved subnet_mapper
                Hresolved) as [_ Hassoc].
    exists (calls (create_routes new_table_id gateway_ident (req_routes table))),
      (calls (associate_subnets new_table_id resolved subnet_mapper)),
      resolved.
    split_and!; [apply create_routes_calls | done |].
    right. exists s, others. split_and!; [done | done |].
    pose proof (create_tables_cons_missing_block created_id
                  (n + length before) vpc_ident gateway_ident table after
                  subnet_mapper resolved s others Hsubnets Hresolved Hs)
      as Hhere.
    rewrite (create_tables_app_Raise _ _ _ _ _ _ _ KeyError Hbefore);
      by rewrite Hhere.
Qed.

Lemma create_tables_calls_reached_witness :
  ∃ route_calls subnet_calls resolved,
    Forall2 (creates_route "rtb-new1" "igw-1")
      [{| dest := "0.0.0.0/0"; gw := "igw" |};
       {| dest := "10.8.0.0/16"; gw := "i-0123" |}] route_calls
    ∧ Forall2 (associates_subnet "rtb-new1" Net.mapper) resolved subnet_calls
    ∧ ((resolved = ["10.0.1.0/24"; "10.0.9.0/24"]
        ∧ created_as_declared Net.ids 0 "vpc-1" "igw-1" [Net.want_bare]
            {| req_routes := [{| dest := "0.0.0.0/0"; gw := "igw" |};
                              {| dest := "10.8.0.0/16"; gw := "i-0123" |}];
               req_subnets := ["10.0.1.0/24"; "10.0.9.0/24"] |}
            [Net.want_public] Net.mapper
        ∧ calls (create_tables Net.ids 0 "vpc-1" "igw-1"
                   ([Net.want_bare]
                    ++ {| req_routes :=
                            [{| dest := "0.0.0.0/0"; gw := "igw" |};
                             {| dest := "10.8.0.0/16"; gw := "i-0123" |}];
                          req_subnets := ["10.0.1.0/24"; "10.0.9.0/24"] |}
                       :: [Net.want_public]) Net.mapper)
          = calls (create_tables Net.ids 0 "vpc-1" "igw-1" [Net.want_bare]
                     Net.mapper)
            ++ create_route_table "vpc-1" :: route_calls ++ subnet_calls
            ++ calls (create_tables Net.ids 2 "vpc-1" "igw-1"
                        [Net.want_public] Net.mapper))
       ∨ (∃ s others,
            ["10.0.1.0/24"; "10.0.9.0/24"] = resolved ++ s :: others
            ∧ Net.mapper !! s = None
            ∧ create_tables Net.ids 0 "vpc-1" "igw-1"
                ([Net.want_bare]
                 ++ {| req_routes :=
                         [{| dest := "0.0.0.0/0"; gw := "igw" |};
                          {| dest := "10.8.0.0/16"; gw := "i-0123" |}];
                       req_subnets := ["10.0.1.0/24"; "10.0.9.0/24"] |}
                    :: [Net.want_public]) Net.mapper
              = MkExec
                  (calls (create_tables Net.ids 0 "vpc-1" "igw-1"
                            [Net.want_bare] Net.mapper)
                   ++ create_route_table "vpc-1"
                      :: route_calls ++ subnet_calls)
                  (Raise KeyError))).
Proof.
  apply (create_tables_calls_reached Net.ids 0 "vpc-1" "igw-1" [Net.want_bare]
           {| req_routes := [{| dest := "0.0.0.0/0"; gw := "igw" |};
                             {| dest := "10.8.0.0/16"; gw := "i-0123" |}];
              req_subnets := ["10.0.1.0/24"; "10.0.9.0/24"] |}
           [Net.want_public] Net.mapper).
  intros t ->%list_elem_of_singleton s Hs. by apply elem_of_nil in Hs.
Defined.

(** C6 as it is stated does not hold of every table of the list: with a
    table that names a block out of the lookup followed by a table whose
    blocks are all in it, neither is created as declared.  The calls are the
    creation of the first table and of its route; no association is made
    for the first, and nothing is called for the second. *)
Lemma create_tables_calls_counterexample :
  create_tables Net.ids 0 "vpc-1" "igw-1" [Net.want_typo; Net.want_public]
    Net.mapper
  = MkExec [create_route_table "vpc-1";
            create_route "rtb-new0" "0.0.0.0/0" (Some "igw-1") None]
      (Raise KeyError)
  ∧ ¬ created_as_declared Net.ids 0 "vpc-1" "igw-1" [] Net.want_typo
        [Net.want_public] Net.mapper
  ∧ ¬ created_as_declared Net.ids 0 "vpc-1" "igw-1" [Net.want_typo]
        Net.want_public [] Net.mapper.
Proof.
  split_and!.
  - vm_compute. reflexivity.
  - intros (route_calls & subnet_calls & _ & _ & Hassoc).
    apply Forall2_cons_inv_l in Hassoc
      as (c & cs & (subnet & Hlookup & _) & _ & _).
    vm_compute in Hlookup. discriminate.
  - intros (route_calls & subnet_calls & Hcalls & _ & _).
    apply (f_equal length) in Hcalls. revert Hcalls.
    rewrite !length_app. simpl length. vm_compute. lia.
Qed.
